(** * 454hex2dfu: Intel HEX to DFU image converter for the PIC16F1454

    A shallow embedding of [tools/454hex2dfu.c] and the properties of its
    address gating, of its two checksums and of the DFU suffix it appends.

    Conventions.  A C [unsigned] is a [Z] in [0, 2^32), with the wrap-around
    written out where the source can overflow.  A [char] or [unsigned char]
    is a [Z] holding its byte value.  The array [line[256]] is a [list Z].
    The block returned by [malloc] is a finite map from the offsets inside
    the block to the bytes they hold.  An access outside [line] or outside
    the block is undefined behaviour in C and is a [Fault] here, as is the
    [abort] of a failed [assert]. *)

From Stdlib Require Import ZArith List Lia String Ascii Bool.
From stdpp Require Import base decidable option list gmap strings.

Local Open Scope Z_scope.

(** ** Results of running (part of) the program *)

Inductive fault : Type :=
  | LineRead (off : Z)     (* line[off] read with off outside the array *)
  | ImageRead (a : Z)      (* image[a] read outside the malloc'd block *)
  | ImageWrite (a : Z)     (* image[a] written outside the malloc'd block *)
  | AssertFailed.          (* assert(DFU_SUFFIX == count) does not hold *)

Inductive exec (A : Type) : Type :=
  | Ret (a : A)
  | Fault (f : fault)
  | OutOfFuel.

Arguments Ret {A} a.
Arguments Fault {A} f.
Arguments OutOfFuel {A}.

#[global] Instance exec_ret : MRet exec := @Ret.
#[global] Instance exec_bind : MBind exec := fun A B k m =>
  match m with
  | Ret a => k a
  | Fault f => Fault f
  | OutOfFuel => OutOfFuel
  end.

(** ** Constants of the source *)

Definition PM_SIZE_IN_BYTES : Z := 16384.
Definition CODE_OFFSET_ADDRESS : Z := 0x200.
Definition HIGH_ENDURANCE_ADDRESS : Z := 0x1F80.
Definition DFU_SUFFIX : Z := 16.
Definition USB_PRODUCT_ID : Z := 0x0001.
Definition USB_VENDOR_ID : Z := 0x1234.

Definition wrap32 (x : Z) : Z := x mod 2 ^ 32.

(** ** The two arrays *)

(** [line[off]] *)
Definition line_get (line : list Z) (off : Z) : exec Z :=
  match line !! Z.to_nat off with
  | Some c => Ret c
  | None => Fault (LineRead off)
  end.

(** [image[a]] as an rvalue *)
Definition image_load (image : gmap Z Z) (a : Z) : exec Z :=
  match image !! a with
  | Some b => Ret b
  | None => Fault (ImageRead a)
  end.

(** [image[a] = v], with the conversion of [v] to [unsigned char] *)
Definition image_store (image : gmap Z Z) (a v : Z) : exec (gmap Z Z) :=
  match image !! a with
  | Some _ => Ret (<[a := v mod 256]> image)
  | None => Fault (ImageWrite a)
  end.

(** ** readhex *)

(** The value of a character constant. *)
Definition chr (c : ascii) : Z := Z.of_N (N_of_ascii c).
Arguments chr c%_char.

(** What one digit adds to [result] in the body of [readhex]'s loop. *)
Definition hexval (c : Z) : Z :=
  if (chr "0" <=? c) && (c <=? chr "9") then c - chr "0"
  else if (chr "A" <=? c) && (c <=? chr "F") then 10 + c - chr "A"
  else if (chr "a" <=? c) && (c <=? chr "f") then 10 + c - chr "a"
  else 0.

Fixpoint readhex_loop (line : list Z) (text : Z) (digits : nat) (result : Z)
  : exec Z :=
  match digits with
  | O => Ret result
  | S digits' =>
      c ← line_get line text;
      readhex_loop line (text + 1) digits'
        (wrap32 (wrap32 (Z.shiftl result 4) + hexval c))
  end.

Definition readhex (line : list Z) (text : Z) (digits : nat) : exec Z :=
  readhex_loop line text digits 0.

(** ** calc_modified_crc14 *)

Fixpoint crc14_bits (n : nat) (data crc : Z) : Z :=
  match n with
  | O => crc
  | S n' =>
      let result := Z.lxor (Z.land data 0x0001) (Z.land crc 0x0001) in
      let crc := Z.shiftr crc 1 in
      let crc := if result =? 0 then crc else Z.lxor crc 0x23B1 in
      crc14_bits n' (Z.shiftr data 1) crc
  end.

Definition calc_modified_crc14 (data crc : Z) : Z := crc14_bits 16 data crc.

(** ** crc32_calc *)

Definition crc32_table : list Z := [
  0x00000000; 0x77073096; 0xEE0E612C; 0x990951BA;
  0x076DC419; 0x706AF48F; 0xE963A535; 0x9E6495A3;
  0x0EDB8832; 0x79DCB8A4; 0xE0D5E91E; 0x97D2D988;
  0x09B64C2B; 0x7EB17CBD; 0xE7B82D07; 0x90BF1D91;
  0x1DB71064; 0x6AB020F2; 0xF3B97148; 0x84BE41DE;
  0x1ADAD47D; 0x6DDDE4EB; 0xF4D4B551; 0x83D385C7;
  0x136C9856; 0x646BA8C0; 0xFD62F97A; 0x8A65C9EC;
  0x14015C4F; 0x63066CD9; 0xFA0F3D63; 0x8D080DF5;
  0x3B6E20C8; 0x4C69105E; 0xD56041E4; 0xA2677172;
  0x3C03E4D1; 0x4B04D447; 0xD20D85FD; 0xA50AB56B;
  0x35B5A8FA; 0x42B2986C; 0xDBBBC9D6; 0xACBCF940;
  0x32D86CE3; 0x45DF5C75; 0xDCD60DCF; 0xABD13D59;
  0x26D930AC; 0x51DE003A; 0xC8D75180; 0xBFD06116;
  0x21B4F4B5; 0x56B3C423; 0xCFBA9599; 0xB8BDA50F;
  0x2802B89E; 0x5F058808; 0xC60CD9B2; 0xB10BE924;
  0x2F6F7C87; 0x58684C11; 0xC1611DAB; 0xB6662D3D;
  0x76DC4190; 0x01DB7106; 0x98D220BC; 0xEFD5102A;
  0x71B18589; 0x06B6B51F; 0x9FBFE4A5; 0xE8B8D433;
  0x7807C9A2; 0x0F00F934; 0x9609A88E; 0xE10E9818;
  0x7F6A0DBB; 0x086D3D2D; 0x91646C97; 0xE6635C01;
  0x6B6B51F4; 0x1C6C6162; 0x856530D8; 0xF262004E;
  0x6C0695ED; 0x1B01A57B; 0x8208F4C1; 0xF50FC457;
  0x65B0D9C6; 0x12B7E950; 0x8BBEB8EA; 0xFCB9887C;
  0x62DD1DDF; 0x15DA2D49; 0x8CD37CF3; 0xFBD44C65;
  0x4DB26158; 0x3AB551CE; 0xA3BC0074; 0xD4BB30E2;
  0x4ADFA541; 0x3DD895D7; 0xA4D1C46D; 0xD3D6F4FB;
  0x4369E96A; 0x346ED9FC; 0xAD678846; 0xDA60B8D0;
  0x44042D73; 0x33031DE5; 0xAA0A4C5F; 0xDD0D7CC9;
  0x5005713C; 0x270241AA; 0xBE0B1010; 0xC90C2086;
  0x5768B525; 0x206F85B3; 0xB966D409; 0xCE61E49F;
  0x5EDEF90E; 0x29D9C998; 0xB0D09822; 0xC7D7A8B4;
  0x59B33D17; 0x2EB40D81; 0xB7BD5C3B; 0xC0BA6CAD;
  0xEDB88320; 0x9ABFB3B6; 0x03B6E20C; 0x74B1D29A;
  0xEAD54739; 0x9DD277AF; 0x04DB2615; 0x73DC1683;
  0xE3630B12; 0x94643B84; 0x0D6D6A3E; 0x7A6A5AA8;
  0xE40ECF0B; 0x9309FF9D; 0x0A00AE27; 0x7D079EB1;
  0xF00F9344; 0x8708A3D2; 0x1E01F268; 0x6906C2FE;
  0xF762575D; 0x806567CB; 0x196C3671; 0x6E6B06E7;
  0xFED41B76; 0x89D32BE0; 0x10DA7A5A; 0x67DD4ACC;
  0xF9B9DF6F; 0x8EBEEFF9; 0x17B7BE43; 0x60B08ED5;
  0xD6D6A3E8; 0xA1D1937E; 0x38D8C2C4; 0x4FDFF252;
  0xD1BB67F1; 0xA6BC5767; 0x3FB506DD; 0x48B2364B;
  0xD80D2BDA; 0xAF0A1B4C; 0x36034AF6; 0x41047A60;
  0xDF60EFC3; 0xA867DF55; 0x316E8EEF; 0x4669BE79;
  0xCB61B38C; 0xBC66831A; 0x256FD2A0; 0x5268E236;
  0xCC0C7795; 0xBB0B4703; 0x220216B9; 0x5505262F;
  0xC5BA3BBE; 0xB2BD0B28; 0x2BB45A92; 0x5CB36A04;
  0xC2D7FFA7; 0xB5D0CF31; 0x2CD99E8B; 0x5BDEAE1D;
  0x9B64C2B0; 0xEC63F226; 0x756AA39C; 0x026D930A;
  0x9C0906A9; 0xEB0E363F; 0x72076785; 0x05005713;
  0x95BF4A82; 0xE2B87A14; 0x7BB12BAE; 0x0CB61B38;
  0x92D28E9B; 0xE5D5BE0D; 0x7CDCEFB7; 0x0BDBDF21;
  0x86D3D2D4; 0xF1D4E242; 0x68DDB3F8; 0x1FDA836E;
  0x81BE16CD; 0xF6B9265B; 0x6FB077E1; 0x18B74777;
  0x88085AE6; 0xFF0F6A70; 0x66063BCA; 0x11010B5C;
  0x8F659EFF; 0xF862AE69; 0x616BFFD3; 0x166CCF45;
  0xA00AE278; 0xD70DD2EE; 0x4E048354; 0x3903B3C2;
  0xA7672661; 0xD06016F7; 0x4969474D; 0x3E6E77DB;
  0xAED16A4A; 0xD9D65ADC; 0x40DF0B66; 0x37D83BF0;
  0xA9BCAE53; 0xDEBB9EC5; 0x47B2CF7F; 0x30B5FFE9;
  0xBDBDF21C; 0xCABAC28A; 0x53B39330; 0x24B4A3A6;
  0xBAD03605; 0xCDD70693; 0x54DE5729; 0x23D967BF;
  0xB3667A2E; 0xC4614AB8; 0x5D681B02; 0x2A6F2B94;
  0xB40BBE37; 0xC30C8EA1; 0x5A05DF1B; 0x2D02EF8D
].

Definition crc32_step (crc b : Z) : Z :=
  Z.lxor (nth (Z.to_nat (Z.land (Z.lxor crc b) 0xff)) crc32_table 0)
         (Z.shiftr crc 8).

(** [a] is the offset in the block of the moving pointer [buffer]. *)
Fixpoint crc32_loop (crc : Z) (image : gmap Z Z) (a : Z) (length : nat)
  : exec Z :=
  match length with
  | O => Ret crc
  | S length' =>
      b ← image_load image a;
      crc32_loop (crc32_step crc b) image (a + 1) length'
  end.

Definition crc32_calc (crc : Z) (image : gmap Z Z) (length : nat) : exec Z :=
  crc32_loop crc image 0 length.

(** ** The state of the conversion *)

Record flags : Type := mkFlags {
  out_of_bounds : bool;
  crc_overlap : bool
}.

Record state : Type := mkState {
  image : gmap Z Z;
  fl : flags;
  upper_address : Z
}.

(** ** Reading the input: fgets and the record loop *)

(** The characters [fgets] takes from the stream: at most [n], up to and
    including the first newline. *)
Fixpoint fgets_take (n : nat) (input : list Z) : list Z * list Z :=
  match n, input with
  | O, _ => ([], input)
  | S _, [] => ([], [])
  | S n', c :: rest =>
      if c =? 10 then ([c], rest)
      else let '(got, rest') := fgets_take n' rest in (c :: got, rest')
  end.

(** [fgets(line, sizeof(line), input)]: [None] is the NULL returned at end
    of file; otherwise the characters read and a terminating NUL overwrite
    the start of [line], whose other cells keep what they held. *)
Definition fgets (line input : list Z) : option (list Z * list Z) :=
  match input with
  | [] => None
  | _ :: _ =>
      let '(got, rest) := fgets_take 255 input in
      Some (got ++ 0 :: drop (S (length got)) line, rest)
  end.

(** [0 == strncmp(line + off, s, 2)] for a two-character literal [s]. *)
Definition strncmp2 (line : list Z) (off : nat) (c0 c1 : ascii) : bool :=
  bool_decide (line !! off = Some (chr c0))
  && bool_decide (line !! S off = Some (chr c1)).
Arguments strncmp2 line off%_nat (c0 c1)%_char.

(** The [while (count--)] loop over the payload of a data record. *)
Fixpoint data_loop (count : nat) (line : list Z) (ptr address : Z)
    (image : gmap Z Z) (f : flags) : exec (gmap Z Z * flags) :=
  match count with
  | O => Ret (image, f)
  | S count' =>
      '(image', f') ←
        (if (address <? 0x400) || (address >=? 0x8000)
         then Ret (image, mkFlags true (crc_overlap f))
         else
           v ← readhex line ptr 2;
           image' ← image_store image address v;
           Ret (image', f));
      data_loop count' line (ptr + 2) (wrap32 (address + 1)) image' f'
  end.

(** The body of the record loop for one line that [fgets] delivered; the
    boolean is [true] when the body leaves the loop by [break]. *)
Definition process_line (line : list Z) (st : state) : exec (bool * state) :=
  if bool_decide (line !! 0%nat = Some (chr ":")) then
    count ← readhex line 1 2;
    address ← readhex line 3 4;
    if strncmp2 line 7 "0" "0" && (upper_address st =? 0) then
      '(image', f') ←
        data_loop (Z.to_nat count) line 9 address (image st) (fl st);
      Ret (false, mkState image' f' (upper_address st))
    else if strncmp2 line 7 "0" "4" then
      u ← readhex line 9 4;
      Ret (false, mkState (image st) (fl st) u)
    else if strncmp2 line 7 "0" "1" then
      Ret (true, st)
    else Ret (false, st)
  else Ret (false, st).

(** [while (!feof(input)) { if (fgets(...)) { ... } }].  The end-of-file
    indicator is set by the read that finds no character left: either
    [fgets] returns NULL, and the loop ends at its next test, or [fgets]
    returns a last line that has no newline, and the loop ends after the
    body; here that is the [None] of the next [fgets]. *)
Fixpoint read_loop (fuel : nat) (input line : list Z) (st : state)
  : exec state :=
  match fuel with
  | O => OutOfFuel
  | S fuel' =>
      match fgets line input with
      | None => Ret st
      | Some (line', rest) =>
          '(brk, st') ← process_line line' st;
          if brk : bool then Ret st' else read_loop fuel' rest line' st'
      end
  end.

(** ** The sentinel fill *)

Fixpoint init_loop (fuel : nat) (image : gmap Z Z) (address : Z)
  : exec (gmap Z Z) :=
  match fuel with
  | O => OutOfFuel
  | S fuel' =>
      if address <? PM_SIZE_IN_BYTES then
        image ← image_store image (address + 0) 0xFF;
        image ← image_store image (address + 1) 0x3F;
        init_loop fuel' image (wrap32 (address + 2))
      else Ret image
  end.

(** ** The CRC-14 pass *)

Fixpoint crc14_loop (fuel : nat) (image : gmap Z Z) (address crc : Z)
  : exec (gmap Z Z * bool) :=
  match fuel with
  | O => OutOfFuel
  | S fuel' =>
      let next_address := wrap32 (address + 2) in
      if Z.shiftl HIGH_ENDURANCE_ADDRESS 1 =? next_address then
        b0 ← image_load image (address + 0);
        overlap ←
          (if negb (0xFF =? b0) then Ret true
           else b1 ← image_load image (address + 1);
                Ret (negb (0x3F =? b1)));
        image ← image_store image (address + 0) (Z.land crc 0x00FF);
        image ← image_store image (address + 1)
                  (Z.shiftr (Z.land crc 0xFF00) 8);
        Ret (image, overlap)
      else
        b0 ← image_load image (address + 0);
        b1 ← image_load image (address + 1);
        crc14_loop fuel' image next_address
          (calc_modified_crc14 (wrap32 (b0 + wrap32 (Z.shiftl b1 8))) crc)
  end.

Definition crc14_pass (image : gmap Z Z) : exec (gmap Z Z * bool) :=
  crc14_loop (Z.to_nat 8192) image (Z.shiftl CODE_OFFSET_ADDRESS 1) 0.

(** ** The DFU suffix *)

(** A run of [suffix[count++] = v;] statements, [suffix] being
    [image + PM_SIZE_IN_BYTES]. *)
Fixpoint suffix_put (image : gmap Z Z) (count : Z) (vs : list Z)
  : exec (gmap Z Z * Z) :=
  match vs with
  | [] => Ret (image, count)
  | v :: vs' =>
      image ← image_store image (PM_SIZE_IN_BYTES + count) v;
      suffix_put image (count + 1) vs'
  end.

Definition suffix_fields : list Z :=
  [ 0xFF; 0xFF;                                         (* bcdDevice *)
    Z.shiftr (Z.land USB_PRODUCT_ID 0x00FF) 0;          (* idProduct *)
    Z.shiftr (Z.land USB_PRODUCT_ID 0xFF00) 8;
    Z.shiftr (Z.land USB_VENDOR_ID 0x00FF) 0;           (* idVendor *)
    Z.shiftr (Z.land USB_VENDOR_ID 0xFF00) 8;
    0x00; 0x01;                                         (* bcdDFU *)
    chr "U"; chr "F"; chr "D";                          (* ucDfuSignature *)
    DFU_SUFFIX ].                                       (* bLength *)

Definition dwCRC (crc : Z) : list Z :=
  [ Z.shiftr (Z.land crc 0x000000FF) 0;
    Z.shiftr (Z.land crc 0x0000FF00) 8;
    Z.shiftr (Z.land crc 0x00FF0000) 16;
    Z.shiftr (Z.land crc 0xFF000000) 24 ].

(** [fwrite(image + a, 1, n, output)]: the bytes handed to the stream. *)
Fixpoint fwrite (image : gmap Z Z) (a : Z) (n : nat) : exec (list Z) :=
  match n with
  | O => Ret []
  | S n' =>
      b ← image_load image a;
      bs ← fwrite image (a + 1) n';
      Ret (b :: bs)
  end.

Definition append_suffix (image : gmap Z Z) : exec (list Z) :=
  '(image, count) ← suffix_put image 0 suffix_fields;
  crc ← crc32_calc 0xFFFFFFFF image (Z.to_nat (PM_SIZE_IN_BYTES + count));
  '(image, count) ← suffix_put image count (dwCRC crc);
  if DFU_SUFFIX =? count
  then fwrite image 0 (Z.to_nat (PM_SIZE_IN_BYTES + count))
  else Fault AssertFailed.

(** ** main *)

Definition nl : string := String (ascii_of_nat 10) EmptyString.

Definition msg_usage (argv0 : string) : string :=
  argv0 +:+ " <input_ihex> <output_dfu>" +:+ nl.
Definition msg_alloc : string :=
  "ERROR: unable to allocate memory" +:+ nl.
Definition msg_input (path : string) : string :=
  "ERROR: unable to open input file " +:+ path +:+ nl.
Definition msg_output (path : string) : string :=
  "ERROR: unable to open output file " +:+ path +:+ nl.
Definition msg_out_of_bounds : string :=
  "ERROR: supplied input file is faulty and used out-of-bounds addresses"
  +:+ nl.
Definition msg_crc_overlap : string :=
  "ERROR: CRC address was occupied; app is in conflict with bootloader"
  +:+ nl.

(** From the sentinel fill to [fclose(input)], on the block [block] that
    [malloc] returned, the initial contents [line] of the line array and
    the contents [input] of the input file. *)
Definition build (block : gmap Z Z) (line input : list Z) : exec state :=
  filled ← init_loop (Z.to_nat 8193) block 0;
  read_loop (S (length input)) input line
    (mkState filled (mkFlags false false) 0).

(** From the test of [flags.out_of_bounds] to [skip_write]: the lines
    printed to standard error and, when [fwrite] is reached, the bytes it
    writes. *)
Definition finish (st : state) : exec (list string * option (list Z)) :=
  if out_of_bounds (fl st) then Ret ([msg_out_of_bounds], None)
  else
    '(summed, overlap) ← crc14_pass (image st);
    let flags := mkFlags (out_of_bounds (fl st)) overlap in
    if crc_overlap flags then Ret ([msg_crc_overlap], None)
    else
      written ← append_suffix summed;
      Ret ([], Some written).

Definition convert (block : gmap Z Z) (line input : list Z)
  : exec (list string * option (list Z)) :=
  st ← build block line input;
  finish st.

(** What the program finds when it starts: whether [malloc] succeeds, the
    indeterminate bytes of the fresh block and of the line array, and which
    paths can be opened for writing. *)
Record env : Type := mkEnv {
  malloc_ok : bool;
  heap : Z → Z;
  stack : Z → Z;
  writable : string → bool
}.

(** [n] bytes of indeterminate contents, the first one at offset [a]. *)
Fixpoint fresh (junk : Z → Z) (a : Z) (n : nat) : list Z :=
  match n with
  | O => []
  | S n' => junk a mod 256 :: fresh junk (a + 1) n'
  end.

(** [malloc(n)] when it succeeds. *)
Definition malloc (junk : Z → Z) (n : Z) : gmap Z Z :=
  map_seqZ 0 (fresh junk 0 (Z.to_nat n)).

Record outcome : Type := mkOutcome {
  status : Z;
  stderr : list string;
  files : gmap string (list Z)
}.

(** [main] once the block is allocated and both files are open: [fs] is the
    file system after the second [fopen], [inp] and [outp] the two paths. *)
Definition main_opened (e : env) (fs : gmap string (list Z))
    (inp outp : string) : exec outcome :=
  '(diag, written) ←
    convert (malloc (heap e) (PM_SIZE_IN_BYTES + DFU_SUFFIX))
            (fresh (stack e) 0 256)
            (default [] (fs !! inp));
  Ret (mkOutcome 0 diag
         (match written with
          | Some bytes => <[outp := bytes]> fs
          | None => fs
          end)).

(** Opening the output file with mode "wb" creates it or truncates it; the
    input stream is read after that, so it is read from the file system as
    the second [fopen] left it. *)
Definition main (e : env) (fs : gmap string (list Z)) (argv : list string)
  : exec outcome :=
  if decide (length argv < 3)%nat then
    Ret (mkOutcome (-1) [msg_usage (default "" (argv !! 0%nat))] fs)
  else if malloc_ok e then
    let inp := default "" (argv !! 1%nat) in
    let outp := default "" (argv !! 2%nat) in
    match fs !! inp with
    | None => Ret (mkOutcome (-1) [msg_input inp] fs)
    | Some _ =>
        if writable e outp
        then main_opened e (<[outp := []]> fs) inp outp
        else Ret (mkOutcome (-1) [msg_output outp] fs)
    end
  else Ret (mkOutcome (-1) [msg_alloc] fs).

(** ** Test inputs *)

Definition chars (s : string) : list Z :=
  map (λ c, Z.of_N (N_of_ascii c)) (list_ascii_of_string s).

Definition env0 : env := mkEnv true (λ _, 0) (λ _, 0) (λ _, true).

Definition hexfile (lines : list string) : list Z :=
  concat (map (λ l, chars l ++ [10]) lines).

(** The line array after [fgets] read the line [s] into an array of
    zeros. *)
Definition line_of (s : string) : list Z :=
  match fgets (fresh (λ _, 0) 0 256) (chars s ++ [10]) with
  | Some (line, _) => line
  | None => []
  end.

(** [n] payload bytes, all zero, in hexadecimal. *)
Fixpoint zeros (n : nat) : string :=
  match n with
  | O => EmptyString
  | S n' => String "0" (String "0" (zeros n'))
  end.

Definition argv0 : list string := ["454hex2dfu"; "in.hex"; "out.dfu"]%string.

(** A file system that holds the input file only. *)
Definition fs_of (lines : list string) : gmap string (list Z) :=
  {[ "in.hex"%string := hexfile lines ]}.

Definition run (lines : list string) : exec outcome :=
  main env0 (fs_of lines) argv0.

(** What a run shows: its diagnostics and [n] bytes of the output file from
    offset [a] on. *)
Definition probe (lines : list string) (a : Z) (n : nat)
  : exec (list string * list Z) :=
  o ← run lines;
  Ret (stderr o,
       take n (drop (Z.to_nat a)
                 (default [] (files o !! "out.dfu"%string)))).

(** The state in which the record loop of a run ends. *)
Definition built (lines : list string) : state :=
  match build (malloc (heap env0) 16400) (fresh (stack env0) 0 256)
          (default [] (<["out.dfu"%string := []]> (fs_of lines)
                         !! "in.hex"%string))
        return state with
  | Ret st => st
  | Fault _ => mkState (malloc (heap env0) 16400) (mkFlags false false) 0
  | OutOfFuel => mkState (malloc (heap env0) 16400) (mkFlags false false) 0
  end.

(** The block after the sentinel fill. *)
Definition blank : gmap Z Z :=
  match init_loop (Z.to_nat 8193) (malloc (heap env0) 16400) 0
        return gmap Z Z with
  | Ret filled => filled
  | Fault _ => malloc (heap env0) 16400
  | OutOfFuel => malloc (heap env0) 16400
  end.

Definition eof_record : string := ":00000001FF".

(** One data record with two bytes at 0x0400. *)
Definition good_hex : list string := [":020400003412B4"; eof_record]%string.
(** Two bytes at 0x03FE, below the window. *)
Definition low_hex : list string := [":0203FE003412B7"; eof_record]%string.
(** Two zero bytes at 0x3EFE, where the CRC-14 is stored. *)
Definition seeded_hex : list string := [":023EFE000000C2"; eof_record]%string.
(** One byte at 0x7FFF, the last address that passes the test of the loop. *)
Definition high_hex : list string := [":017FFF00AAD7"; eof_record]%string.
(** One byte at 0x4010, the first address past the block. *)
Definition past_hex : list string := [":01401000AA05"; eof_record]%string.
(** A record of 255 bytes at 0x0400: 521 characters on one line. *)
Definition long_hex : list string :=
  [":FF040000" +:+ zeros 255 +:+ "FD"; eof_record]%string.
(** Data at 0x0400 after extended address 0001, then after 0000. *)
Definition gated_hex : list string :=
  [":020000040001F9"; ":020400003412B4"; ":020000040000FA";
   ":0204020078563C"; eof_record]%string.

(** ** The words of the specification, for comparison *)

(** One of the 16 iterations, in the order the specification lists its
    assignments, on the pair [(data, crc)]. *)
Definition crc14_spec_step (s : Z * Z) : Z * Z :=
  let '(data, crc) := s in
  let bit := Z.lxor (Z.land data 1) (Z.land crc 1) in
  let crc := Z.shiftr crc 1 in
  let data := Z.shiftr data 1 in
  (data, if bit =? 0 then crc else Z.lxor crc 0x23B1).

Definition crc14_spec (data crc : Z) : Z :=
  snd (Nat.iter 16 crc14_spec_step (data, crc)).

(** The number that a run of hexadecimal digits denotes, a character that
    is no digit counting as 0. *)
Definition hex_value (cs : list Z) : Z :=
  fold_left (λ r c, r * 16 + hexval c) cs 0.

(** The line in the array is a record of the type whose two characters are
    [c0] and [c1]. *)
Definition record_type (line : list Z) (c0 c1 : ascii) : Prop :=
  line !! 0%nat = Some (chr ":")
  ∧ line !! 7%nat = Some (chr c0) ∧ line !! 8%nat = Some (chr c1).
Arguments record_type line (c0 c1)%_char.

(** The 16-bit word whose low byte is at offset [a] and whose high byte is
    at offset [a + 1]. *)
Definition le16 (image : gmap Z Z) (a : Z) : Z :=
  default 0 (image !! a) + 2 ^ 8 * default 0 (image !! (a + 1)).

(** [n] successive even-spaced offsets from [a] on. *)
Fixpoint window (a : Z) (n : nat) : list Z :=
  match n with
  | O => []
  | S n' => a :: window (a + 2) n'
  end.

(** The register after the words at the offsets [as_] were folded in. *)
Definition crc14_fold (image : gmap Z Z) (as_ : list Z) (crc : Z) : Z :=
  fold_left (λ crc a, calc_modified_crc14 (le16 image a) crc) as_ crc.

(** The overlap test of the pass, on the two cells of the checksum. *)
Definition occupied (image : gmap Z Z) : bool :=
  negb (0xFF =? default 0 (image !! 0x3EFE))
  || negb (0x3F =? default 0 (image !! 0x3EFF)).

(** The image with the register [crc] stored in the two cells. *)
Definition with_crc14 (image : gmap Z Z) (crc : Z) : gmap Z Z :=
  <[0x3EFF := Z.shiftr (Z.land crc 0xFF00) 8 mod 256]>
    (<[0x3EFE := Z.land crc 0x00FF mod 256]> image).

(** The erased pattern: 0xFF at even offsets, 0x3F at odd ones. *)
Definition sentinel (a : Z) : Z := if Z.even a then 0xFF else 0x3F.

(** Every cell of [lo, hi] holds the erased pattern. *)
Definition erased (image : gmap Z Z) (lo hi : Z) : Prop :=
  ∀ a, lo ≤ a ≤ hi → image !! a = Some (sentinel a).

(** The bytes of [n] successive cells from offset [a] on. *)
Fixpoint cells (image : gmap Z Z) (a : Z) (n : nat) : list Z :=
  match n with
  | O => []
  | S n' => default 0 (image !! a) :: cells image (a + 1) n'
  end.

(** One bit of the reflected CRC-32 of IEEE 802.3. *)
Definition crc32_bit (crc : Z) : Z :=
  if Z.testbit crc 0 then Z.lxor (Z.shiftr crc 1) 0xEDB88320
  else Z.shiftr crc 1.

(** One byte, bit by bit. *)
Definition crc32_byte (crc b : Z) : Z :=
  Nat.iter 8 crc32_bit (Z.lxor crc b).

(** The running register over [bytes], from 0xFFFFFFFF, with no final
    inversion. *)
Definition crc32_raw (bytes : list Z) : Z :=
  fold_left crc32_byte bytes 0xFFFFFFFF.

(** The four bytes of a 32-bit value, least significant first. *)
Definition le32 (v : Z) : list Z :=
  [ v mod 256; (v / 2 ^ 8) mod 256; (v / 2 ^ 16) mod 256;
    (v / 2 ^ 24) mod 256 ].

(** The file that a run reaching [fwrite] writes, from the image as the
    record loop left it: program memory with the CRC-14 stored, the 12
    fixed bytes of the suffix, and the four bytes of [dwCRC]. *)
Definition dfu_body (image : gmap Z Z) : list Z :=
  cells (with_crc14 image
           (crc14_fold image (window 0x400 (Z.to_nat 7551)) 0))
        0 (Z.to_nat 16384)
  ++ suffix_fields.

Definition dfu_file (image : gmap Z Z) : list Z :=
  dfu_body image
  ++ ((λ v, v mod 256) <$>
        dwCRC (fold_left crc32_step (dfu_body image) 0xFFFFFFFF)).

(** The diagnostic of a validation that fails, in the state in which the
    record loop ended: [out_of_bounds] is tested first, and the cells of the
    checksum only when it is clear. *)
Definition verdict (st : state) : option string :=
  if out_of_bounds (fl st) then Some msg_out_of_bounds
  else if occupied (image st) then Some msg_crc_overlap
  else None.

(** A block of 16400 cells that hold bytes. *)
Definition block_ok (image : gmap Z Z) : Prop :=
  ∀ a, (0 ≤ a < 16400 → ∃ b, image !! a = Some b ∧ 0 ≤ b < 256)
       ∧ (¬ 0 ≤ a < 16400 → image !! a = None).

(** ** Notions for the further properties *)

(** [P] holds of the result of [m], when [m] has one. *)
Definition ensures {A} (m : exec A) (P : A → Prop) : Prop :=
  match m with
  | Ret a => P a
  | Fault _ => True
  | OutOfFuel => True
  end.

(** [m1] and [m2] end the same way, with results related by [R]. *)
Definition exec_rel {A B} (R : A → B → Prop) (m1 : exec A) (m2 : exec B)
  : Prop :=
  match m1, m2 with
  | Ret a, Ret b => R a b
  | Fault f, Fault g => f = g
  | OutOfFuel, OutOfFuel => True
  | _, _ => False
  end.

(** Two blocks that hold the same program memory. *)
Definition same_program (i1 i2 : gmap Z Z) : Prop :=
  block_ok i1 ∧ block_ok i2 ∧ ∀ a, a < 16384 → i1 !! a = i2 !! a.

Definition same_state (s1 s2 : state) : Prop :=
  same_program (image s1) (image s2)
  ∧ fl s1 = fl s2 ∧ upper_address s1 = upper_address s2.

(** The upper-case and the lower-case digit of the nibble [n]. *)
Definition upper_digit (n : Z) : Z :=
  if n <? 10 then chr "0" + n else chr "A" + (n - 10).
Definition lower_digit (n : Z) : Z :=
  if n <? 10 then chr "0" + n else chr "a" + (n - 10).

(** [c] is a hexadecimal digit of value [n], in either case. *)
Definition digit_of (c n : Z) : Prop :=
  0 ≤ n < 16 ∧ (c = upper_digit n ∨ c = lower_digit n).

(** [m] has a result. *)
Definition returns {A} (m : exec A) : bool :=
  match m with
  | Ret _ => true
  | Fault _ => false
  | OutOfFuel => false
  end.

(** * Proofs *)

(** ** The monad *)

Lemma bind_Ret {A B} (a : A) (k : A → exec B) : (Ret a ≫= k) = k a.
Proof. reflexivity. Qed.

Lemma bind_Ret_inv {A B} (m : exec A) (k : A → exec B) (b : B) :
  (m ≫= k) = Ret b → ∃ a, m = Ret a ∧ k a = Ret b.
Proof. destruct m as [a| |]; simpl; intros H; try discriminate; eauto. Qed.

(** ** Blocks *)

Lemma block_ok_lookup image a :
  block_ok image → 0 ≤ a < 16400 → ∃ b, image !! a = Some b ∧ 0 ≤ b < 256.
Proof. intros H; apply H. Qed.

Lemma block_ok_outside image a :
  block_ok image → ¬ 0 ≤ a < 16400 → image !! a = None.
Proof. intros H; apply H. Qed.

Lemma block_ok_insert image a v :
  block_ok image → 0 ≤ a < 16400 → block_ok (<[a := v mod 256]> image).
Proof.
  intros Hok Ha a'. split; intros Ha'.
  - destruct (decide (a = a')) as [->|Hne].
    + rewrite lookup_insert_eq. eexists; split; [done|].
      apply Z.mod_pos_bound; lia.
    + rewrite lookup_insert_ne by done. by apply block_ok_lookup.
  - rewrite lookup_insert_ne by lia. by apply block_ok_outside.
Qed.

Lemma image_store_ok image a v :
  block_ok image → 0 ≤ a < 16400 →
  image_store image a v = Ret (<[a := v mod 256]> image).
Proof.
  intros Hok Ha. unfold image_store.
  destruct (block_ok_lookup image a Hok Ha) as (b & -> & _). done.
Qed.

Lemma image_store_fault image a v :
  block_ok image → ¬ 0 ≤ a < 16400 →
  image_store image a v = Fault (ImageWrite a).
Proof.
  intros Hok Ha. unfold image_store.
  by rewrite (block_ok_outside image a Hok Ha).
Qed.

Lemma image_load_ok image a :
  block_ok image → 0 ≤ a < 16400 →
  image_load image a = Ret (default 0 (image !! a))
  ∧ 0 ≤ default 0 (image !! a) < 256.
Proof.
  intros Hok Ha. unfold image_load.
  destruct (block_ok_lookup image a Hok Ha) as (b & -> & Hb). done.
Qed.

Lemma fresh_length junk a n : length (fresh junk a n) = n.
Proof. revert a; induction n; intros; simpl; auto. Qed.

Lemma fresh_lookup junk a n (i : nat) :
  (i < n)%nat → fresh junk a n !! i = Some (junk (a + Z.of_nat i) mod 256).
Proof.
  revert a i; induction n as [|n IH]; intros a [|i] Hi; try lia.
  - simpl. by rewrite Z.add_0_r.
  - replace (a + Z.of_nat (S i)) with (a + 1 + Z.of_nat i) by lia.
    simpl. apply IH. lia.
Qed.

Lemma block_ok_malloc junk : block_ok (malloc junk 16400).
Proof.
  intros a. unfold malloc. split; intros Ha.
  - rewrite lookup_map_seqZ_0 by lia.
    rewrite fresh_lookup by lia. eexists; split; [done|].
    apply Z.mod_pos_bound; lia.
  - apply lookup_map_seqZ_None. rewrite fresh_length. lia.
Qed.

(** ** The modified CRC-14 *)

Lemma lxor_bound k a b :
  0 ≤ k → 0 ≤ a < 2 ^ k → 0 ≤ b < 2 ^ k → 0 ≤ Z.lxor a b < 2 ^ k.
Proof.
  intros Hk Ha Hb.
  assert (0 ≤ Z.lxor a b) as Hnn by (apply Z.lxor_nonneg; lia).
  split; [done|].
  apply Z.bounded_iff_bits_nonneg; [done..|].
  intros l Hl. rewrite Z.lxor_spec.
  rewrite (proj1 (Z.bounded_iff_bits_nonneg k a Hk (proj1 Ha)) (proj2 Ha) l Hl).
  by rewrite (proj1 (Z.bounded_iff_bits_nonneg k b Hk (proj1 Hb)) (proj2 Hb) l Hl).
Qed.

Lemma shiftr1_bound crc : 0 ≤ crc < 0x4000 → 0 ≤ Z.shiftr crc 1 < 0x2000.
Proof.
  intros H. rewrite Z.shiftr_div_pow2 by lia. change (2 ^ 1) with 2.
  split; [apply Z.div_pos; lia | apply Z.div_lt_upper_bound; lia].
Qed.

Lemma crc14_bits_bound n data crc :
  0 ≤ crc < 0x4000 → 0 ≤ crc14_bits n data crc < 0x4000.
Proof.
  revert data crc; induction n as [|n IH]; intros data crc Hcrc; [done|].
  cbn [crc14_bits]. apply IH.
  pose proof (shiftr1_bound crc Hcrc) as Hs.
  destruct (_ =? 0); [lia|].
  apply (lxor_bound 14); lia.
Qed.

Lemma crc14_bits_spec n data crc :
  crc14_bits n data crc = snd (Nat.iter n crc14_spec_step (data, crc)).
Proof.
  revert data crc; induction n as [|n IH]; intros data crc; [done|].
  rewrite Nat.iter_succ_r. cbn [crc14_bits]. rewrite IH. reflexivity.
Qed.

(** Folds are unfolded by rewriting with these equations, never by
    conversion: comparing two register values up to conversion unfolds the
    16 iterations of [crc14_bits] on symbolic arguments. *)
Lemma fold_left_cons_eq {A B} (f : A → B → A) (b : B) (l : list B) (a : A) :
  fold_left f (b :: l) a = fold_left f l (f a b).
Proof. reflexivity. Qed.

Lemma fold_left_invariant {A B} (P : A → Prop) (f : A → B → A) l a :
  (∀ a b, P a → P (f a b)) → P a → P (fold_left f l a).
Proof.
  intros Hf. revert a. induction l as [|b l IH]; intros a Ha; [done|].
  rewrite fold_left_cons_eq. apply IH, Hf, Ha.
Qed.

Lemma fold_left_ext_in {A B} (f g : A → B → A) l a :
  (∀ a b, b ∈ l → f a b = g a b) → fold_left f l a = fold_left g l a.
Proof.
  revert a. induction l as [|b l IH]; intros a H; [done|].
  rewrite !fold_left_cons_eq, (H a b) by apply list_elem_of_here.
  apply IH. intros a' b' Hb'. apply H. by apply list_elem_of_further.
Qed.

Lemma crc14_fold_cons image a as_ crc :
  crc14_fold image (a :: as_) crc
  = crc14_fold image as_ (calc_modified_crc14 (le16 image a) crc).
Proof. unfold crc14_fold. rewrite fold_left_cons_eq. reflexivity. Qed.

Lemma calc_modified_crc14_bound data crc :
  0 ≤ crc < 0x4000 → 0 ≤ calc_modified_crc14 data crc < 0x4000.
Proof. apply crc14_bits_bound. Qed.

Lemma crc14_fold_bound image as_ crc :
  0 ≤ crc < 0x4000 → 0 ≤ crc14_fold image as_ crc < 0x4000.
Proof.
  unfold crc14_fold.
  apply (fold_left_invariant (λ crc, 0 ≤ crc < 0x4000)).
  intros c a. apply calc_modified_crc14_bound.
Qed.

Lemma crc14_fold_ext image image' as_ crc :
  (∀ a, a ∈ as_ → le16 image a = le16 image' a) →
  crc14_fold image as_ crc = crc14_fold image' as_ crc.
Proof.
  intros H. unfold crc14_fold. apply fold_left_ext_in.
  intros c a Ha. cbv beta. by rewrite (H a Ha).
Qed.

Lemma elem_of_window a n x :
  x ∈ window a n ↔ ∃ k, 0 ≤ k < Z.of_nat n ∧ x = a + 2 * k.
Proof.
  revert a; induction n as [|n IH]; intros a; cbn [window].
  - rewrite elem_of_nil. split; [done|]. intros (k & ? & _). lia.
  - rewrite elem_of_cons, IH. split.
    + intros [->|(k & Hk & ->)]; [exists 0 | exists (k + 1)]; lia.
    + intros (k & Hk & ->). destruct (decide (k = 0)) as [->|Hne].
      * left. lia.
      * right. exists (k - 1). lia.
Qed.

Lemma le16_bytes image a :
  block_ok image → 0 ≤ a → a + 1 < 16400 →
  wrap32 (default 0 (image !! a)
          + wrap32 (Z.shiftl (default 0 (image !! (a + 1))) 8))
  = le16 image a.
Proof.
  intros Hok Ha Ha'.
  destruct (image_load_ok image a Hok) as [_ H0]; [lia|].
  destruct (image_load_ok image (a + 1) Hok) as [_ H1]; [lia|].
  unfold le16, wrap32. rewrite Z.shiftl_mul_pow2 by lia.
  change (2 ^ 8) with 256. change (2 ^ 32) with 4294967296.
  rewrite (Z.mod_small (_ * 256)) by lia.
  rewrite Z.mod_small by lia. lia.
Qed.

Lemma crc14_loop_S fuel image address crc :
  crc14_loop (S fuel) image address crc =
    let next_address := wrap32 (address + 2) in
    if 0x3F00 =? next_address then
      b0 ← image_load image (address + 0);
      overlap ←
        (if negb (0xFF =? b0) then Ret true
         else b1 ← image_load image (address + 1);
              Ret (negb (0x3F =? b1)));
      image ← image_store image (address + 0) (Z.land crc 0x00FF);
      image ← image_store image (address + 1)
                (Z.shiftr (Z.land crc 0xFF00) 8);
      Ret (image, overlap)
    else
      b0 ← image_load image (address + 0);
      b1 ← image_load image (address + 1);
      crc14_loop fuel image next_address
        (calc_modified_crc14 (wrap32 (b0 + wrap32 (Z.shiftl b1 8))) crc).
Proof. reflexivity. Qed.

Lemma crc14_loop_fold image n : ∀ fuel address crc,
  block_ok image → (n < fuel)%nat →
  0 ≤ address → address + 2 * Z.of_nat n = 0x3EFE →
  crc14_loop fuel image address crc =
    Ret (with_crc14 image (crc14_fold image (window address n) crc),
         occupied image).
Proof.
  induction n as [|n IH]; intros fuel address crc Hok Hfuel Ha Hend;
    (destruct fuel as [|fuel]; [lia|]); rewrite crc14_loop_S; cbv zeta.
  - assert (address = 0x3EFE) as -> by lia.
    change (0x3F00 =? wrap32 (0x3EFE + 2)) with true. cbv iota.
    change (0x3EFE + 0) with 0x3EFE. change (0x3EFE + 1) with 0x3EFF.
    destruct (image_load_ok image 0x3EFE Hok) as [-> _]; [lia|].
    destruct (image_load_ok image 0x3EFF Hok) as [E1 _]; [lia|].
    rewrite bind_Ret.
    assert ((if negb (0xFF =? default 0 (image !! 0x3EFE)) then Ret true
             else b1 ← image_load image 0x3EFF; Ret (negb (0x3F =? b1)))
            = Ret (occupied image)) as ->.
    { unfold occupied. rewrite E1. by destruct (negb (0xFF =? _)). }
    rewrite bind_Ret, image_store_ok by (done || lia).
    rewrite bind_Ret, image_store_ok
      by (by apply block_ok_insert || lia).
    reflexivity.
  - assert (wrap32 (address + 2) = address + 2) as ->
      by (unfold wrap32; apply Z.mod_small; lia).
    destruct (Z.eqb_spec 0x3F00 (address + 2)) as [?|_]; [lia|].
    rewrite Z.add_0_r.
    destruct (image_load_ok image address Hok) as [-> _]; [lia|].
    destruct (image_load_ok image (address + 1) Hok) as [-> _]; [lia|].
    rewrite !bind_Ret, le16_bytes by (done || lia).
    rewrite IH by (done || lia).
    change (window address (S n)) with (address :: window (address + 2) n).
    by rewrite crc14_fold_cons.
Qed.

(** What the pass does to a block: the words of [0x400, 0x3EFE) are folded
    into a register that starts at 0, and the register is stored at 0x3EFE
    and 0x3EFF. *)
Lemma crc14_pass_eq image :
  block_ok image →
  crc14_pass image =
    Ret (with_crc14 image
           (crc14_fold image (window 0x400 (Z.to_nat 7551)) 0),
         occupied image).
Proof.
  intros Hok. unfold crc14_pass.
  apply crc14_loop_fold; [done|lia|done|lia].
Qed.

Lemma land_FF crc : Z.land crc 0x00FF = crc mod 256.
Proof. change 0x00FF with (Z.ones 8). by rewrite Z.land_ones. Qed.

Lemma land_FF00_shiftr crc :
  Z.shiftr (Z.land crc 0xFF00) 8 = (crc / 256) mod 256.
Proof.
  rewrite Z.shiftr_land. change (Z.shiftr 0xFF00 8) with (Z.ones 8).
  rewrite Z.land_ones, Z.shiftr_div_pow2 by lia. done.
Qed.

Lemma with_crc14_lo image crc :
  with_crc14 image crc !! 0x3EFE = Some (crc mod 256).
Proof.
  unfold with_crc14. rewrite lookup_insert_ne by lia.
  rewrite lookup_insert_eq, land_FF, Z.mod_mod by lia. done.
Qed.

Lemma with_crc14_hi image crc :
  with_crc14 image crc !! 0x3EFF = Some ((crc / 256) mod 256).
Proof.
  unfold with_crc14.
  rewrite lookup_insert_eq, land_FF00_shiftr, Z.mod_mod by lia. done.
Qed.

Lemma with_crc14_other image crc a :
  a ≠ 0x3EFE → a ≠ 0x3EFF → with_crc14 image crc !! a = image !! a.
Proof.
  intros. unfold with_crc14. by rewrite !lookup_insert_ne by lia.
Qed.

Lemma block_ok_with_crc14 image crc :
  block_ok image → block_ok (with_crc14 image crc).
Proof.
  intros Hok. unfold with_crc14.
  apply block_ok_insert; [apply block_ok_insert; [done|lia] | lia].
Qed.

Lemma le16_with_crc14 image crc :
  0 ≤ crc < 0x10000 → le16 (with_crc14 image crc) 0x3EFE = crc.
Proof.
  intros Hcrc. unfold le16. change (0x3EFE + 1) with 0x3EFF.
  rewrite with_crc14_lo, with_crc14_hi. cbn [default from_option id].
  change (2 ^ 8) with 256.
  rewrite (Z.mod_small (crc / 256)).
  - pose proof (Z_div_mod_eq_full crc 256). lia.
  - split; [apply Z.div_pos; lia | apply Z.div_lt_upper_bound; lia].
Qed.

Lemma window_even a n x : x ∈ window a n → Z.even x = Z.even a.
Proof.
  intros (k & _ & ->)%elem_of_window.
  by rewrite Z.even_add_mul_2.
Qed.

Lemma le16_erased image a :
  erased image a (a + 1) → Z.even a = true → le16 image a = 0x3FFF.
Proof.
  intros He Hev. unfold le16.
  rewrite (He a), (He (a + 1)) by lia. unfold sentinel.
  rewrite Hev. replace (a + 1) with (Z.succ a) by lia.
  rewrite Z.even_succ, <- Z.negb_even, Hev. done.
Qed.

(** The register over a window of erased words does not depend on the rest
    of the image. *)
Lemma crc14_fold_erased image :
  erased image 0x400 0x3EFF →
  crc14_fold image (window 0x400 (Z.to_nat 7551)) 0 = 0x0B86.
Proof.
  intros He. unfold crc14_fold.
  rewrite (fold_left_ext_in _ (λ crc _, calc_modified_crc14 0x3FFF crc)).
  - vm_compute. reflexivity.
  - intros crc a Ha. cbv beta. rewrite le16_erased; [done| |].
    + apply elem_of_window in Ha as (k & Hk & ->).
      rewrite Z2Nat.id in Hk by lia.
      intros a' Ha'. apply He. lia.
    + by rewrite (window_even _ _ _ Ha).
Qed.

Lemma elem_of_crc14_window a :
  a ∈ window 0x400 (Z.to_nat 7551)
  ↔ 2 * CODE_OFFSET_ADDRESS ≤ a ∧ a + 2 < 2 * HIGH_ENDURANCE_ADDRESS
    ∧ Z.even a = true.
Proof.
  unfold CODE_OFFSET_ADDRESS, HIGH_ENDURANCE_ADDRESS.
  rewrite elem_of_window, Z2Nat.id by lia. split.
  - intros (k & Hk & ->). rewrite Z.even_add_mul_2. split_and!; [lia..|done].
  - intros (Hlo & Hhi & [m ->]%Z.even_spec). exists (m - 0x200). lia.
Qed.

(** C3: the CRC-14 pass folds the little-endian words at the even offsets
    from byte 0x400 (word 0x200) up to the last word before the checksum
    cell, in steps of 2 bytes, starting from register 0; it stops at the
    high-endurance boundary 0x3F00 (word 0x1F80) and stores the register,
    low byte first, in the last two bytes below it, 0x3EFE and 0x3EFF, and
    changes no other cell; when the window 0x400..0x3EFF holds the erased
    pattern the register is the fixed value 0x0B86. *)
Theorem C3_crc14_pass_window (image : gmap Z Z) :
  block_ok image →
  ∃ crc image',
    crc14_pass image = Ret (image', occupied image)
    ∧ crc = crc14_fold image (window 0x400 (Z.to_nat 7551)) 0
    ∧ (∀ a, a ∈ window 0x400 (Z.to_nat 7551)
            ↔ 2 * CODE_OFFSET_ADDRESS ≤ a
              ∧ a + 2 < 2 * HIGH_ENDURANCE_ADDRESS ∧ Z.even a = true)
    ∧ image' !! (2 * HIGH_ENDURANCE_ADDRESS - 2) = Some (crc mod 256)
    ∧ image' !! (2 * HIGH_ENDURANCE_ADDRESS - 1) = Some (crc / 256)
    ∧ (∀ a, a ≠ 2 * HIGH_ENDURANCE_ADDRESS - 2 →
            a ≠ 2 * HIGH_ENDURANCE_ADDRESS - 1 → image' !! a = image !! a)
    ∧ (erased image 0x400 0x3EFF → crc = 0x0B86).
Proof.
  intros Hok.
  pose proof (crc14_fold_bound image (window 0x400 (Z.to_nat 7551)) 0) as Hb.
  set (crc := crc14_fold image (window 0x400 (Z.to_nat 7551)) 0) in *.
  exists crc, (with_crc14 image crc).
  change (2 * HIGH_ENDURANCE_ADDRESS - 2) with 0x3EFE.
  change (2 * HIGH_ENDURANCE_ADDRESS - 1) with 0x3EFF.
  split_and!.
  - by apply crc14_pass_eq.
  - done.
  - apply elem_of_crc14_window.
  - apply with_crc14_lo.
  - rewrite with_crc14_hi. f_equal. apply Z.mod_small.
    split; [apply Z.div_pos; lia | apply Z.div_lt_upper_bound; lia].
  - intros a H1 H2. by apply with_crc14_other.
  - apply crc14_fold_erased.
Qed.

Lemma calc_modified_crc14_spec data crc :
  calc_modified_crc14 data crc = crc14_spec data crc.
Proof. apply crc14_bits_spec. Qed.

Lemma calc_modified_crc14_iter data crc :
  calc_modified_crc14 data crc
  = snd (Nat.iter 16 crc14_spec_step (data, crc)).
Proof. apply crc14_bits_spec. Qed.

Lemma le16_split image a :
  block_ok image → 0 ≤ a → a + 1 < 16400 →
  ∃ lo hi, image !! a = Some lo ∧ image !! (a + 1) = Some hi
           ∧ le16 image a mod 256 = lo ∧ le16 image a / 256 = hi.
Proof.
  intros Hok Ha Ha'.
  destruct (block_ok_lookup image a Hok) as (lo & Elo & Hlo); [lia|].
  destruct (block_ok_lookup image (a + 1) Hok) as (hi & Ehi & Hhi); [lia|].
  exists lo, hi. unfold le16. rewrite Elo, Ehi. cbn [default from_option id].
  change (2 ^ 8) with 256. split_and!; [done..| |].
  - rewrite (Z.mul_comm 256 hi), Z.mod_add by lia. by apply Z.mod_small.
  - rewrite (Z.mul_comm 256 hi), Z.div_add by lia.
    rewrite (Z.div_small lo) by lia. lia.
Qed.

(** C4: [calc_modified_crc14] is 16 iterations of the step of the
    specification, for every [data] and [crc]; and the register the pass
    stores is the fold of that function over the words at the even offsets
    of the window, each word having its low byte at the even offset and its
    high byte at the next one. *)
Theorem C4_crc14_sixteen_iterations :
  (∀ data crc, calc_modified_crc14 data crc
               = snd (Nat.iter 16 crc14_spec_step (data, crc)))
  ∧ (∀ image, block_ok image →
       ∃ image' overlap,
         crc14_pass image = Ret (image', overlap)
         ∧ le16 image' 0x3EFE
           = fold_left (λ crc a, crc14_spec (le16 image a) crc)
               (window 0x400 (Z.to_nat 7551)) 0
         ∧ ∀ a, a ∈ window 0x400 (Z.to_nat 7551) →
             Z.even a = true
             ∧ ∃ lo hi, image !! a = Some lo ∧ image !! (a + 1) = Some hi
                        ∧ le16 image a mod 256 = lo
                        ∧ le16 image a / 256 = hi).
Proof.
  split; [exact calc_modified_crc14_iter|].
  intros image Hok.
  pose proof (crc14_fold_bound image (window 0x400 (Z.to_nat 7551)) 0) as Hb.
  eexists _, _. split; [by apply crc14_pass_eq|]. split.
  - rewrite le16_with_crc14 by lia. unfold crc14_fold.
    apply fold_left_ext_in. intros crc a _. apply calc_modified_crc14_spec.
  - intros a Ha%elem_of_crc14_window.
    unfold CODE_OFFSET_ADDRESS, HIGH_ENDURANCE_ADDRESS in Ha.
    split; [apply Ha|]. apply le16_split; [done|lia..].
Qed.

Lemma C4_crc14_sixteen_iterations_witness :
  ∃ image' overlap,
    crc14_pass (malloc (λ _, 0) 16400) = Ret (image', overlap)
    ∧ le16 image' 0x3EFE
      = fold_left (λ crc a, crc14_spec (le16 (malloc (λ _, 0) 16400) a) crc)
          (window 0x400 (Z.to_nat 7551)) 0.
Proof.
  destruct (proj2 C4_crc14_sixteen_iterations (malloc (λ _, 0) 16400)
              (block_ok_malloc _)) as (image' & overlap & H1 & H2 & _).
  exists image', overlap. split; [exact H1 | exact H2].
Defined.

(** C9: a register below 0x4000 stays below 0x4000 through
    [calc_modified_crc14], whatever the word; and the two bytes the pass
    stores, low byte at 0x3EFE and high byte at 0x3EFF, form a word below
    0x4000: the high byte is below 0x40. *)
Theorem C9_crc14_fits_14_bits :
  (∀ data crc, 0 ≤ crc < 0x4000 → 0 ≤ calc_modified_crc14 data crc < 0x4000)
  ∧ (∀ image, block_ok image →
       ∃ image' overlap lo hi,
         crc14_pass image = Ret (image', overlap)
         ∧ image' !! 0x3EFE = Some lo ∧ image' !! 0x3EFF = Some hi
         ∧ 0 ≤ lo < 256 ∧ 0 ≤ hi < 0x40
         ∧ 0 ≤ le16 image' 0x3EFE < 0x4000).
Proof.
  split; [exact calc_modified_crc14_bound|].
  intros image Hok.
  pose proof (crc14_fold_bound image (window 0x400 (Z.to_nat 7551)) 0) as Hb.
  set (crc := crc14_fold image (window 0x400 (Z.to_nat 7551)) 0) in *.
  exists (with_crc14 image crc), (occupied image),
    (crc mod 256), ((crc / 256) mod 256).
  assert (0 ≤ crc / 256 < 0x40) as Hhi
    by (split; [apply Z.div_pos; lia | apply Z.div_lt_upper_bound; lia]).
  pose proof (Z.mod_pos_bound crc 256) as Hlo.
  rewrite (Z.mod_small (crc / 256)) by lia.
  rewrite (le16_with_crc14 image crc) by lia.
  split; [by apply crc14_pass_eq|].
  split; [apply with_crc14_lo|].
  split; [rewrite with_crc14_hi; f_equal; apply Z.mod_small; lia|].
  lia.
Qed.

Lemma C9_crc14_fits_14_bits_witness :
  0 ≤ calc_modified_crc14 0xFFFF 0x3FFF < 0x4000
  ∧ ∃ image' overlap lo hi,
      crc14_pass (malloc (λ _, 0) 16400) = Ret (image', overlap)
      ∧ image' !! 0x3EFE = Some lo ∧ image' !! 0x3EFF = Some hi
      ∧ 0 ≤ lo < 256 ∧ 0 ≤ hi < 0x40
      ∧ 0 ≤ le16 image' 0x3EFE < 0x4000.
Proof.
  split.
  - apply (proj1 C9_crc14_fits_14_bits). lia.
  - apply (proj2 C9_crc14_fits_14_bits). apply block_ok_malloc.
Defined.

(** ** readhex and the record loop *)

Lemma hexval_range c : 0 ≤ hexval c < 16.
Proof.
  unfold hexval. change (chr "0") with 48. change (chr "9") with 57.
  change (chr "A") with 65. change (chr "F") with 70.
  change (chr "a") with 97. change (chr "f") with 102.
  repeat case_match; lia.
Qed.

Lemma line_get_ok (line : list Z) (off : nat) c :
  line !! off = Some c → line_get line (Z.of_nat off) = Ret c.
Proof. intros H. unfold line_get. by rewrite Nat2Z.id, H. Qed.

Lemma line_get_fault (line : list Z) off :
  (length line ≤ Z.to_nat off)%nat →
  line_get line off = Fault (LineRead off).
Proof.
  intros H. unfold line_get. by rewrite (proj2 (lookup_ge_None line _) H).
Qed.

Lemma readhex_step (line : list Z) text digits result c :
  line_get line text = Ret c → 0 ≤ result < 2 ^ 28 →
  readhex_loop line text (S digits) result
  = readhex_loop line (text + 1) digits (result * 16 + hexval c).
Proof.
  intros Hc Hr. cbn [readhex_loop]. rewrite Hc, bind_Ret.
  pose proof (hexval_range c). f_equal.
  unfold wrap32. rewrite Z.shiftl_mul_pow2 by lia.
  change (2 ^ 4) with 16. change (2 ^ 28) with 268435456 in Hr.
  change (2 ^ 32) with 4294967296.
  rewrite (Z.mod_small (result * 16)) by lia. apply Z.mod_small. lia.
Qed.

Lemma readhex_2 (line : list Z) (off : nat) c0 c1 :
  line !! off = Some c0 → line !! S off = Some c1 →
  readhex line (Z.of_nat off) 2 = Ret (hex_value [c0; c1]).
Proof.
  intros H0 H1. unfold readhex.
  pose proof (hexval_range c0). pose proof (hexval_range c1).
  rewrite (readhex_step _ _ _ _ c0) by (by apply line_get_ok || lia).
  replace (Z.of_nat off + 1) with (Z.of_nat (S off)) by lia.
  rewrite (readhex_step _ _ _ _ c1) by (by apply line_get_ok || lia).
  reflexivity.
Qed.

Lemma readhex_4 (line : list Z) (off : nat) c0 c1 c2 c3 :
  line !! off = Some c0 → line !! S off = Some c1 →
  line !! S (S off) = Some c2 → line !! S (S (S off)) = Some c3 →
  readhex line (Z.of_nat off) 4 = Ret (hex_value [c0; c1; c2; c3]).
Proof.
  intros H0 H1 H2 H3. unfold readhex.
  pose proof (hexval_range c0). pose proof (hexval_range c1).
  pose proof (hexval_range c2). pose proof (hexval_range c3).
  rewrite (readhex_step _ _ _ _ c0) by (by apply line_get_ok || lia).
  replace (Z.of_nat off + 1) with (Z.of_nat (S off)) by lia.
  rewrite (readhex_step _ _ _ _ c1) by (by apply line_get_ok || lia).
  replace (Z.of_nat (S off) + 1) with (Z.of_nat (S (S off))) by lia.
  rewrite (readhex_step _ _ _ _ c2) by (by apply line_get_ok || lia).
  replace (Z.of_nat (S (S off)) + 1) with (Z.of_nat (S (S (S off)))) by lia.
  rewrite (readhex_step _ _ _ _ c3) by (by apply line_get_ok || lia).
  reflexivity.
Qed.

Lemma hex_value_2_range c0 c1 : 0 ≤ hex_value [c0; c1] < 256.
Proof.
  pose proof (hexval_range c0). pose proof (hexval_range c1).
  unfold hex_value. cbn [fold_left]. lia.
Qed.

Lemma hex_value_4_range c0 c1 c2 c3 : 0 ≤ hex_value [c0; c1; c2; c3] < 65536.
Proof.
  pose proof (hexval_range c0). pose proof (hexval_range c1).
  pose proof (hexval_range c2). pose proof (hexval_range c3).
  unfold hex_value. cbn [fold_left]. lia.
Qed.

(** In an array of 256 cells the reads of the header fields succeed. *)
Lemma line_cell (line : list Z) (off : nat) :
  length line = 256%nat → (off < 256)%nat → ∃ c, line !! off = Some c.
Proof. intros Hl Ho. apply lookup_lt_is_Some. lia. Qed.

Lemma readhex_count (line : list Z) :
  length line = 256%nat →
  ∃ count, readhex line 1 2 = Ret count ∧ 0 ≤ count < 256.
Proof.
  intros Hl.
  destruct (line_cell line 1 Hl) as [c0 H0]; [lia|].
  destruct (line_cell line 2 Hl) as [c1 H1]; [lia|].
  exists (hex_value [c0; c1]). split; [|apply hex_value_2_range].
  by apply (readhex_2 line 1).
Qed.

Lemma readhex_address (line : list Z) (off : nat) :
  length line = 256%nat → (off + 4 ≤ 256)%nat →
  ∃ c0 c1 c2 c3, take 4 (drop off line) = [c0; c1; c2; c3]
    ∧ readhex line (Z.of_nat off) 4 = Ret (hex_value [c0; c1; c2; c3]).
Proof.
  intros Hl Ho.
  destruct (line_cell line off Hl) as [c0 H0]; [lia|].
  destruct (line_cell line (S off) Hl) as [c1 H1]; [lia|].
  destruct (line_cell line (S (S off)) Hl) as [c2 H2]; [lia|].
  destruct (line_cell line (S (S (S off))) Hl) as [c3 H3]; [lia|].
  exists c0, c1, c2, c3. split; [|by apply readhex_4].
  apply list_eq. intros [|[|[|[|i]]]];
    rewrite lookup_take, lookup_drop; cbn; try case_decide; try lia;
    rewrite ?Nat.add_0_r, ?Nat.add_1_r; try done.
  - by replace (off + 2)%nat with (S (S off)) by lia.
  - by replace (off + 3)%nat with (S (S (S off))) by lia.
Qed.

Lemma strncmp2_true (line : list Z) (off : nat) c0 c1 :
  line !! off = Some (chr c0) → line !! S off = Some (chr c1) →
  strncmp2 line off c0 c1 = true.
Proof.
  intros H0 H1. unfold strncmp2.
  by rewrite !bool_decide_eq_true_2.
Qed.

Lemma strncmp2_false (line : list Z) (off : nat) c0 c1 x :
  line !! S off = Some x → x ≠ chr c1 → strncmp2 line off c0 c1 = false.
Proof.
  intros H1 Hne. unfold strncmp2. rewrite (bool_decide_eq_false_2 (_ !! S off = _)).
  - apply andb_false_r.
  - rewrite H1. congruence.
Qed.

Lemma process_line_header (line : list Z) st :
  length line = 256%nat → line !! 0%nat = Some (chr ":") →
  ∃ count address,
    readhex line 1 2 = Ret count ∧ 0 ≤ count < 256
    ∧ readhex line 3 4 = Ret address ∧ 0 ≤ address < 65536
    ∧ process_line line st =
        if strncmp2 line 7 "0" "0" && (upper_address st =? 0) then
          '(image', f') ←
            data_loop (Z.to_nat count) line 9 address (image st) (fl st);
          Ret (false, mkState image' f' (upper_address st))
        else if strncmp2 line 7 "0" "4" then
          u ← readhex line 9 4;
          Ret (false, mkState (image st) (fl st) u)
        else if strncmp2 line 7 "0" "1" then Ret (true, st)
        else Ret (false, st).
Proof.
  intros Hl H0.
  destruct (readhex_count line Hl) as (count & Hc & Hcr).
  destruct (readhex_address line 3 Hl) as (c0 & c1 & c2 & c3 & _ & Ha); [lia|].
  exists count, (hex_value [c0; c1; c2; c3]).
  split_and!; [done|lia|lia|done|apply hex_value_4_range..|].
  unfold process_line. rewrite bool_decide_eq_true_2 by done.
  change 3 with (Z.of_nat 3). by rewrite Hc, Ha.
Qed.



(** ** The payload loop *)

Lemma data_loop_S count (line : list Z) ptr address image f :
  data_loop (S count) line ptr address image f =
    '(image', f') ←
      (if (address <? 0x400) || (address >=? 0x8000)
       then Ret (image, mkFlags true (crc_overlap f))
       else
         v ← readhex line ptr 2;
         image' ← image_store image address v;
         Ret (image', f));
    data_loop count line (ptr + 2) (wrap32 (address + 1)) image' f'.
Proof. reflexivity. Qed.

(** One payload byte whose address passes the test of the loop: the flag
    is not touched; the byte is stored when the address is inside the
    block, and the store is outside the block otherwise. *)
Lemma data_loop_in_window count (line : list Z) ptr address image f v :
  block_ok image → 0x400 ≤ address < 0x8000 →
  readhex line ptr 2 = Ret v →
  data_loop (S count) line ptr address image f =
    if decide (address < 16400)
    then data_loop count line (ptr + 2) (address + 1)
           (<[address := v mod 256]> image) f
    else Fault (ImageWrite address).
Proof.
  intros Hok Ha Hv. rewrite data_loop_S.
  destruct (Z.ltb_spec address 0x400) as [?|_]; [lia|].
  destruct (Z.geb_spec address 0x8000) as [?|_]; [lia|].
  cbn [orb]. rewrite Hv, bind_Ret.
  case_decide.
  - rewrite image_store_ok by (done || lia). rewrite !bind_Ret.
    unfold wrap32. by rewrite Z.mod_small by lia.
  - by rewrite image_store_fault by (done || lia).
Qed.

(** One payload byte whose address fails the test: the flag is set and
    nothing is read or stored. *)
Lemma data_loop_outside count (line : list Z) ptr address image f :
  address < 0x400 ∨ 0x8000 ≤ address →
  data_loop (S count) line ptr address image f =
    data_loop count line (ptr + 2) (wrap32 (address + 1)) image
      (mkFlags true (crc_overlap f)).
Proof.
  intros Ha. rewrite data_loop_S.
  destruct (Z.ltb_spec address 0x400) as [?|?]; [done|].
  destruct (Z.geb_spec address 0x8000) as [?|?]; [done|lia].
Qed.

Lemma image_store_inv image a v image' :
  block_ok image → image_store image a v = Ret image' →
  0 ≤ a < 16400 ∧ image' = <[a := v mod 256]> image ∧ block_ok image'.
Proof.
  intros Hok H. destruct (decide (0 ≤ a < 16400)) as [Ha|Ha].
  - rewrite image_store_ok in H by done. injection H as <-.
    split_and!; [lia..|done|by apply block_ok_insert].
  - by rewrite image_store_fault in H.
Qed.

Lemma data_loop_block_ok count (line : list Z) : ∀ ptr address image f image' f',
  block_ok image →
  data_loop count line ptr address image f = Ret (image', f') →
  block_ok image'.
Proof.
  induction count as [|count IH]; intros ptr address image f image' f' Hok H.
  - cbn in H. by injection H as <- <-.
  - rewrite data_loop_S in H.
    apply bind_Ret_inv in H as ([image1 f1] & H1 & H2).
    eapply IH; [|exact H2].
    destruct (_ || _).
    + by injection H1 as <- <-.
    + apply bind_Ret_inv in H1 as (v & _ & H1).
      apply bind_Ret_inv in H1 as (image2 & Hst & H1).
      injection H1 as <- <-.
      by apply (image_store_inv image address v).
Qed.

Lemma process_line_block_ok (line : list Z) st brk st' :
  block_ok (image st) → process_line line st = Ret (brk, st') →
  block_ok (image st').
Proof.
  intros Hok H. unfold process_line in H.
  case_bool_decide; [|by injection H as <- <-].
  apply bind_Ret_inv in H as (count & _ & H).
  apply bind_Ret_inv in H as (address & _ & H).
  destruct (_ && _).
  - apply bind_Ret_inv in H as ([image1 f1] & H1 & H).
    injection H as <- <-. cbn [image].
    by eapply data_loop_block_ok.
  - destruct (strncmp2 line 7 "0" "4").
    + apply bind_Ret_inv in H as (u & _ & H). by injection H as <- <-.
    + destruct (strncmp2 line 7 "0" "1"); by injection H as <- <-.
Qed.

Lemma fgets_take_length n : ∀ input got rest,
  fgets_take n input = (got, rest) →
  (length got ≤ n)%nat ∧ input = got ++ rest.
Proof.
  induction n as [|n IH]; intros input got rest H.
  - cbn in H. injection H as <- <-. done.
  - destruct input as [|c input]; cbn in H.
    + injection H as <- <-. cbn. split; [lia|done].
    + destruct (c =? 10).
      * injection H as <- <-. cbn. split; [lia|done].
      * destruct (fgets_take n input) as [got' rest'] eqn:E.
        injection H as <- <-. destruct (IH _ _ _ E) as [? ->].
        cbn. split; [lia|done].
Qed.

Lemma fgets_take_nonempty n c input :
  fst (fgets_take (S n) (c :: input)) ≠ [].
Proof.
  cbn [fgets_take]. destruct (c =? 10); [done|].
  by destruct (fgets_take n input).
Qed.

Lemma fgets_spec (line input line' rest : list Z) :
  length line = 256%nat → fgets line input = Some (line', rest) →
  length line' = 256%nat ∧ (length rest < length input)%nat.
Proof.
  intros Hl H. unfold fgets in H. destruct input as [|c input]; [done|].
  destruct (fgets_take 255 (c :: input)) as [got rest'] eqn:E.
  injection H as <- <-.
  destruct (fgets_take_length _ _ _ _ E) as [Hg Happ].
  pose proof (fgets_take_nonempty 254 c input) as Hne.
  change (S 254) with 255%nat in Hne. rewrite E in Hne. cbn [fst] in Hne.
  split.
  - rewrite length_app. cbn [length]. rewrite length_drop. lia.
  - rewrite Happ, length_app. destruct got; [done|cbn; lia].
Qed.

(** Only the loops that take fuel can run out of it. *)
Lemma bind_OutOfFuel_inv {A B} (m : exec A) (k : A → exec B) :
  (m ≫= k) = OutOfFuel → m = OutOfFuel ∨ ∃ a, m = Ret a ∧ k a = OutOfFuel.
Proof. destruct m as [a| |]; cbn; intros H; try discriminate; eauto. Qed.

Lemma readhex_loop_fuel (line : list Z) digits : ∀ text result,
  readhex_loop line text digits result ≠ OutOfFuel.
Proof.
  induction digits as [|digits IH]; intros text result; [done|].
  cbn [readhex_loop]. unfold line_get. destruct (line !! _); [|done].
  rewrite bind_Ret. apply IH.
Qed.

Lemma readhex_fuel (line : list Z) text digits :
  readhex line text digits ≠ OutOfFuel.
Proof. apply readhex_loop_fuel. Qed.

Lemma image_store_fuel image a v : image_store image a v ≠ OutOfFuel.
Proof. unfold image_store. by destruct (image !! a). Qed.

Lemma data_loop_fuel count (line : list Z) : ∀ ptr address image f,
  data_loop count line ptr address image f ≠ OutOfFuel.
Proof.
  induction count as [|count IH]; intros ptr address image f; [done|].
  rewrite data_loop_S. intros [H|([image1 f1] & _ & H)]%bind_OutOfFuel_inv.
  - destruct (_ || _); [done|].
    apply bind_OutOfFuel_inv in H as [H1|(v & _ & H1)].
    + by apply readhex_fuel in H1.
    + apply bind_OutOfFuel_inv in H1 as [H2|(? & _ & H2)]; [|done].
      by apply image_store_fuel in H2.
  - by apply IH in H.
Qed.

Lemma process_line_fuel (line : list Z) st :
  process_line line st ≠ OutOfFuel.
Proof.
  unfold process_line. case_bool_decide; [|done].
  intros [H0|(count & _ & H0)]%bind_OutOfFuel_inv;
    [by apply readhex_fuel in H0|].
  apply bind_OutOfFuel_inv in H0 as [H1|(address & _ & H1)];
    [by apply readhex_fuel in H1|].
  destruct (_ && _).
  - apply bind_OutOfFuel_inv in H1 as [H2|([? ?] & _ & H2)]; [|done].
    by apply data_loop_fuel in H2.
  - destruct (strncmp2 line 7 "0" "4").
    + apply bind_OutOfFuel_inv in H1 as [H2|(? & _ & H2)]; [|done].
      by apply readhex_fuel in H2.
    + by destruct (strncmp2 line 7 "0" "1").
Qed.

(** The record loop ends before its fuel does, and keeps the block a
    block. *)
Lemma read_loop_total fuel : ∀ (input line : list Z) st,
  (length input < fuel)%nat → length line = 256%nat →
  block_ok (image st) →
  (∃ st', read_loop fuel input line st = Ret st' ∧ block_ok (image st'))
  ∨ (∃ f, read_loop fuel input line st = Fault f).
Proof.
  induction fuel as [|fuel IH]; intros input line st Hf Hl Hok; [lia|].
  cbn [read_loop]. destruct (fgets line input) as [[line' rest]|] eqn:E.
  - destruct (fgets_spec _ _ _ _ Hl E) as [Hl' Hr].
    destruct (process_line line' st) as [[brk st']|f|] eqn:Ep.
    + rewrite bind_Ret.
      pose proof (process_line_block_ok _ _ _ _ Hok Ep) as Hok'.
      destruct brk; [left; eauto|]. apply IH; [lia|done..].
    + right. by exists f.
    + by apply process_line_fuel in Ep.
  - left. eauto.
Qed.

(** ** The sentinel fill *)

Lemma init_loop_S fuel image address :
  init_loop (S fuel) image address =
    if address <? 16384 then
      image ← image_store image (address + 0) 0xFF;
      image ← image_store image (address + 1) 0x3F;
      init_loop fuel image (wrap32 (address + 2))
    else Ret image.
Proof. reflexivity. Qed.

Lemma init_loop_fill n : ∀ fuel image address,
  block_ok image → (n < fuel)%nat →
  0 ≤ address → address + 2 * Z.of_nat n = 16384 →
  ∃ image',
    init_loop fuel image address = Ret image' ∧ block_ok image'
    ∧ (∀ a, address ≤ a < 16384 → image' !! a = Some (sentinel a))
    ∧ (∀ a, ¬ address ≤ a < 16384 → image' !! a = image !! a).
Proof.
  induction n as [|n IH]; intros fuel image address Hok Hf Ha Hend;
    (destruct fuel as [|fuel]; [lia|]); rewrite init_loop_S.
  - destruct (Z.ltb_spec address 16384) as [?|_]; [lia|].
    exists image. split_and!; [done..| |done]. intros a ?. lia.
  - destruct (Z.ltb_spec address 16384) as [_|?]; [|lia].
    rewrite Z.add_0_r, image_store_ok, bind_Ret by (done || lia).
    rewrite image_store_ok, bind_Ret
      by ((apply block_ok_insert; [done|lia]) || lia).
    assert (wrap32 (address + 2) = address + 2) as ->
      by (unfold wrap32; apply Z.mod_small; lia).
    destruct (IH fuel (<[address + 1 := 0x3F mod 256]>
                         (<[address := 0xFF mod 256]> image)) (address + 2))
      as (image' & -> & Hok' & Hs & Ho); [|lia..|].
    { apply block_ok_insert; [apply block_ok_insert; [done|lia]|lia]. }
    exists image'. split_and!; [done..| |].
    + intros a Hr.
      assert (Z.even address = true) as Hev.
      { replace address with (0 + 2 * (8192 - Z.of_nat (S n))) by lia.
        by rewrite Z.even_add_mul_2. }
      destruct (decide (a = address)) as [->|?];
        [|destruct (decide (a = address + 1)) as [->|?]].
      * rewrite Ho by lia. rewrite lookup_insert_ne by lia.
        rewrite lookup_insert_eq. unfold sentinel. by rewrite Hev.
      * rewrite Ho by lia. rewrite lookup_insert_eq. unfold sentinel.
        replace (address + 1) with (Z.succ address) by lia.
        by rewrite Z.even_succ, <- Z.negb_even, Hev.
      * apply Hs. lia.
    + intros a Hr. rewrite Ho by lia. by rewrite !lookup_insert_ne by lia.
Qed.

(** The block after the sentinel fill. *)
Lemma init_loop_block block :
  block_ok block →
  ∃ filled,
    init_loop (Z.to_nat 8193) block 0 = Ret filled
    ∧ block_ok filled ∧ erased filled 0 16383
    ∧ ∀ a, 16384 ≤ a → filled !! a = block !! a.
Proof.
  intros Hb.
  destruct (init_loop_fill (Z.to_nat 8192) (Z.to_nat 8193) block 0)
    as (filled & H & Hok & Hs & Ho); [done|lia..|].
  exists filled. split_and!; [done..| |].
  - intros a Ha. apply Hs. lia.
  - intros a Ha. apply Ho. lia.
Qed.

(** The run up to [fclose(input)] ends with a block, or stops at an access
    outside an array; it never runs out of fuel. *)
Lemma build_total block (line input : list Z) :
  block_ok block → length line = 256%nat →
  (∃ st, build block line input = Ret st ∧ block_ok (image st))
  ∨ (∃ f, build block line input = Fault f).
Proof.
  intros Hb Hl. unfold build.
  destruct (init_loop_block block Hb) as (filled & -> & Hok & _).
  rewrite bind_Ret. apply read_loop_total; [lia|done..].
Qed.

Lemma build_block_ok block (line input : list Z) st :
  block_ok block → length line = 256%nat →
  build block line input = Ret st → block_ok (image st).
Proof.
  intros Hb Hl H.
  destruct (build_total block line input Hb Hl)
    as [(st' & E & Hok)|(f & E)].
  - assert (st' = st) as <- by congruence. done.
  - congruence.
Qed.

(** ** Reading runs of cells *)

Lemma cells_length image n : ∀ a, length (cells image a n) = n.
Proof. induction n as [|n IH]; intros a; cbn; [done|]. by rewrite IH. Qed.

Lemma cells_ext image image' n : ∀ a,
  (∀ i, a ≤ i < a + Z.of_nat n → image !! i = image' !! i) →
  cells image a n = cells image' a n.
Proof.
  induction n as [|n IH]; intros a H; [done|].
  cbn [cells]. rewrite (H a) by lia. f_equal.
  apply IH. intros i Hi. apply H. lia.
Qed.

Lemma cells_app image n m : ∀ a,
  cells image a (n + m) = cells image a n ++ cells image (a + Z.of_nat n) m.
Proof.
  induction n as [|n IH]; intros a.
  - cbn. by rewrite Z.add_0_r.
  - cbn [cells Nat.add app]. rewrite IH. do 3 f_equal. lia.
Qed.

Lemma cells_lookup image n : ∀ a (i : nat),
  (i < n)%nat →
  cells image a n !! i = Some (default 0 (image !! (a + Z.of_nat i))).
Proof.
  induction n as [|n IH]; intros a [|i] Hi; try lia.
  - cbn. by rewrite Z.add_0_r.
  - replace (a + Z.of_nat (S i)) with (a + 1 + Z.of_nat i) by lia.
    cbn. apply IH. lia.
Qed.

Lemma cells_bytes image n : ∀ a,
  block_ok image → 0 ≤ a → a + Z.of_nat n ≤ 16400 →
  Forall (λ b, 0 ≤ b < 256) (cells image a n).
Proof.
  induction n as [|n IH]; intros a Hok Ha Hn; cbn [cells]; [done|].
  constructor; [|apply IH; [done|lia..]].
  by apply image_load_ok; [|lia].
Qed.

Lemma fwrite_ok image n : ∀ a,
  block_ok image → 0 ≤ a → a + Z.of_nat n ≤ 16400 →
  fwrite image a n = Ret (cells image a n).
Proof.
  induction n as [|n IH]; intros a Hok Ha Hn; [done|].
  cbn [fwrite cells].
  destruct (image_load_ok image a Hok) as [-> _]; [lia|].
  rewrite bind_Ret, IH by (done || lia). done.
Qed.

Lemma crc32_loop_ok image n : ∀ a crc,
  block_ok image → 0 ≤ a → a + Z.of_nat n ≤ 16400 →
  crc32_loop crc image a n = Ret (fold_left crc32_step (cells image a n) crc).
Proof.
  induction n as [|n IH]; intros a crc Hok Ha Hn; [done|].
  cbn [crc32_loop cells].
  destruct (image_load_ok image a Hok) as [-> _]; [lia|].
  rewrite bind_Ret, IH by (done || lia).
  by rewrite fold_left_cons_eq.
Qed.

Lemma suffix_put_ok vs : ∀ image count,
  block_ok image → 0 ≤ count → count + Z.of_nat (length vs) ≤ 16 →
  ∃ image',
    suffix_put image count vs = Ret (image', count + Z.of_nat (length vs))
    ∧ block_ok image'
    ∧ cells image' (16384 + count) (length vs) = (λ v, v mod 256) <$> vs
    ∧ ∀ a, ¬ 16384 + count ≤ a < 16384 + count + Z.of_nat (length vs) →
           image' !! a = image !! a.
Proof.
  induction vs as [|v vs IH]; intros image count Hok Hc Hn.
  - exists image. cbn. rewrite Z.add_0_r. done.
  - cbn [suffix_put length]. cbn [length] in Hn.
    change PM_SIZE_IN_BYTES with 16384.
    rewrite image_store_ok, bind_Ret by (done || lia).
    destruct (IH (<[16384 + count := v mod 256]> image) (count + 1))
      as (image' & -> & Hok' & Hcells & Hother); [|lia..|].
    { apply block_ok_insert; [done|lia]. }
    exists image'. split_and!.
    + do 2 f_equal. lia.
    + done.
    + cbn [cells fmap list_fmap]. rewrite Hother by lia.
      rewrite lookup_insert_eq. cbn. f_equal.
      replace (16384 + count + 1) with (16384 + (count + 1)) by lia.
      exact Hcells.
    + intros a Ha. rewrite Hother by lia. by rewrite lookup_insert_ne by lia.
Qed.

(** The bytes that a run reaching [fwrite] hands to the output stream: the
    16384 bytes of program memory, the 12 fixed bytes of the suffix, and
    the register of [crc32_calc] over those 16396 bytes. *)
Lemma append_suffix_ok image :
  block_ok image →
  append_suffix image =
    Ret (cells image 0 (Z.to_nat 16384) ++ suffix_fields
         ++ ((λ v, v mod 256) <$>
               dwCRC (fold_left crc32_step
                        (cells image 0 (Z.to_nat 16384) ++ suffix_fields)
                        0xFFFFFFFF))).
Proof.
  intros Hok. unfold append_suffix.
  remember (Z.to_nat 16384) as n eqn:Hn.
  destruct (suffix_put_ok suffix_fields image 0)
    as (image1 & -> & Hok1 & Hc1 & Ho1); [done|lia|cbn; lia|].
  change (length suffix_fields) with 12%nat in *.
  change ((λ v, v mod 256) <$> suffix_fields) with suffix_fields in Hc1.
  change (0 + Z.of_nat 12) with 12 in *. change (16384 + 0) with 16384 in *.
  rewrite bind_Ret. cbv beta iota.
  change (PM_SIZE_IN_BYTES + 12) with 16396.
  unfold crc32_calc.
  replace (Z.to_nat 16396) with (n + 12)%nat by lia.
  rewrite crc32_loop_ok by (done || lia).
  rewrite bind_Ret, cells_app.
  replace (0 + Z.of_nat n) with 16384 by lia.
  rewrite Hc1, (cells_ext image1 image n) by (intros; apply Ho1; lia).
  set (crc := fold_left crc32_step (cells image 0 n ++ suffix_fields)
                0xFFFFFFFF).
  destruct (suffix_put_ok (dwCRC crc) image1 12)
    as (image2 & -> & Hok2 & Hc2 & Ho2); [done|lia|cbn; lia|].
  change (length (dwCRC crc)) with 4%nat in *.
  change (12 + Z.of_nat 4) with 16 in *. change (16384 + 12) with 16396 in *.
  rewrite bind_Ret. cbv beta iota.
  change (DFU_SUFFIX =? 16) with true. cbv iota.
  change (PM_SIZE_IN_BYTES + 16) with 16400.
  replace (Z.to_nat 16400) with (n + (12 + 4))%nat by lia.
  rewrite fwrite_ok by (done || lia).
  rewrite cells_app, cells_app.
  replace (0 + Z.of_nat n) with 16384 by lia.
  change (16384 + Z.of_nat 12) with 16396. rewrite Hc2.
  rewrite (cells_ext image2 image1 n) by (intros; apply Ho2; lia).
  rewrite (cells_ext image1 image n) by (intros; apply Ho1; lia).
  rewrite (cells_ext image2 image1 12) by (intros; apply Ho2; lia).
  by rewrite Hc1.
Qed.

(** What [finish] does on a block. *)
Lemma finish_ok st :
  block_ok (image st) →
  finish st =
    if out_of_bounds (fl st) then Ret ([msg_out_of_bounds], None)
    else if occupied (image st) then Ret ([msg_crc_overlap], None)
    else Ret ([], Some (dfu_file (image st))).
Proof.
  intros Hok. unfold finish. destruct (out_of_bounds (fl st)); [done|].
  rewrite crc14_pass_eq, bind_Ret by done. cbv beta iota zeta.
  cbn [crc_overlap].
  destruct (occupied (image st)); [done|].
  rewrite append_suffix_ok by (by apply block_ok_with_crc14).
  rewrite bind_Ret. unfold dfu_file, dfu_body. by rewrite <- app_assoc.
Qed.

(** ** CRC-32: the table against the bit-by-bit computation *)

Lemma crc32_table_bitwise :
  forallb (λ i, nth (Z.to_nat i) crc32_table 0 =? Nat.iter 8 crc32_bit i)
          (seqZ 0 256) = true.
Proof. vm_compute. reflexivity. Qed.

Lemma crc32_table_entry i :
  0 ≤ i < 256 → nth (Z.to_nat i) crc32_table 0 = Nat.iter 8 crc32_bit i.
Proof.
  intros Hi. pose proof crc32_table_bitwise as H.
  rewrite forallb_forall in H. apply Z.eqb_eq, H.
  apply list_elem_of_In, elem_of_seqZ. lia.
Qed.

Lemma crc32_bit_lxor a b :
  crc32_bit (Z.lxor a b) = Z.lxor (crc32_bit a) (crc32_bit b).
Proof.
  unfold crc32_bit. rewrite Z.lxor_spec, Z.shiftr_lxor.
  set (p := 0xEDB88320). set (x := Z.shiftr a 1). set (y := Z.shiftr b 1).
  destruct (Z.testbit a 0), (Z.testbit b 0); cbn [xorb];
    apply Z.bits_inj'; intros n _; rewrite !Z.lxor_spec;
    by destruct (Z.testbit x n), (Z.testbit y n), (Z.testbit p n).
Qed.

Lemma crc32_bits_lxor n a b :
  Nat.iter n crc32_bit (Z.lxor a b)
  = Z.lxor (Nat.iter n crc32_bit a) (Nat.iter n crc32_bit b).
Proof.
  induction n as [|n IH]; [done|].
  by rewrite !Nat.iter_succ, IH, crc32_bit_lxor.
Qed.

Lemma crc32_bit_shiftl y j :
  0 < j → crc32_bit (Z.shiftl y j) = Z.shiftl y (j - 1).
Proof.
  intros Hj. unfold crc32_bit.
  rewrite Z.shiftl_spec_low by lia.
  by rewrite Z.shiftr_shiftl_l by lia.
Qed.

Lemma crc32_bits_shiftl (n : nat) y :
  Nat.iter n crc32_bit (Z.shiftl y (Z.of_nat n)) = y.
Proof.
  induction n as [|n IH].
  - cbn. apply Z.shiftl_0_r.
  - rewrite Nat.iter_succ_r, crc32_bit_shiftl by lia.
    replace (Z.of_nat (S n) - 1) with (Z.of_nat n) by lia. apply IH.
Qed.

Lemma split_low_byte x :
  x = Z.lxor (Z.land x 0xFF) (Z.shiftl (Z.shiftr x 8) 8).
Proof.
  apply Z.bits_inj'. intros n Hn.
  rewrite Z.lxor_spec, Z.land_spec.
  change 0xFF with (Z.ones 8).
  destruct (decide (n < 8)).
  - rewrite Z.ones_spec_low, Z.shiftl_spec_low by lia.
    by rewrite andb_true_r, xorb_false_r.
  - rewrite Z.ones_spec_high, Z.shiftl_spec, Z.shiftr_spec by lia.
    rewrite andb_false_r, xorb_false_l. f_equal. lia.
Qed.

Lemma crc32_step_bitwise crc b :
  0 ≤ b < 256 → crc32_step crc b = crc32_byte crc b.
Proof.
  intros Hb. unfold crc32_step, crc32_byte.
  set (x := Z.lxor crc b).
  assert (Z.shiftr crc 8 = Z.shiftr x 8) as ->.
  { unfold x. rewrite Z.shiftr_lxor.
    rewrite (Z.shiftr_div_pow2 b), Z.div_small by lia.
    by rewrite Z.lxor_0_r. }
  assert (0 ≤ Z.land x 255 < 256) as Hi.
  { change 255 with (Z.ones 8). rewrite Z.land_ones by lia.
    apply Z.mod_pos_bound. lia. }
  rewrite crc32_table_entry by done.
  rewrite (split_low_byte x) at 3.
  rewrite crc32_bits_lxor. f_equal.
  symmetry. apply (crc32_bits_shiftl 8).
Qed.

Lemma crc32_fold_bitwise bytes crc :
  Forall (λ b, 0 ≤ b < 256) bytes →
  fold_left crc32_step bytes crc = fold_left crc32_byte bytes crc.
Proof.
  intros H. apply fold_left_ext_in. intros c b Hb.
  apply crc32_step_bitwise. rewrite Forall_forall in H. by apply H.
Qed.

Lemma dwCRC_le32 crc : (λ v, v mod 256) <$> dwCRC crc = le32 crc.
Proof.
  unfold dwCRC, le32. cbn [fmap list_fmap].
  rewrite !Z.shiftr_land.
  change (Z.shiftr 0x000000FF 0) with (Z.ones 8).
  change (Z.shiftr 0x0000FF00 8) with (Z.ones 8).
  change (Z.shiftr 0x00FF0000 16) with (Z.ones 8).
  change (Z.shiftr 0xFF000000 24) with (Z.ones 8).
  rewrite !Z.land_ones, !Z.shiftr_div_pow2 by lia.
  change (2 ^ 0) with 1. change (2 ^ 8) with 256. rewrite Z.div_1_r.
  by rewrite !Z.mod_mod by lia.
Qed.

(** ** The output file *)

Lemma dfu_body_length image : length (dfu_body image) = Z.to_nat 16396.
Proof.
  unfold dfu_body. rewrite length_app, cells_length.
  change (length suffix_fields) with 12%nat. lia.
Qed.

Lemma dfu_file_length image : length (dfu_file image) = Z.to_nat 16400.
Proof.
  unfold dfu_file. rewrite length_app, dfu_body_length, length_fmap.
  change (length (dwCRC _)) with 4%nat. lia.
Qed.

Lemma dfu_file_body image :
  take (Z.to_nat 16396) (dfu_file image) = dfu_body image.
Proof.
  unfold dfu_file. rewrite <- (dfu_body_length image). apply take_app_length.
Qed.

Lemma dfu_file_dwCRC image :
  drop (Z.to_nat 16396) (dfu_file image)
  = le32 (fold_left crc32_step (dfu_body image) 0xFFFFFFFF).
Proof.
  unfold dfu_file. rewrite <- (dfu_body_length image) at 1.
  by rewrite drop_app_length, dwCRC_le32.
Qed.

Lemma dfu_file_suffix image :
  take 12 (drop (Z.to_nat 16384) (dfu_file image)) = suffix_fields.
Proof.
  unfold dfu_file, dfu_body. rewrite <- app_assoc.
  set (c := cells _ 0 (Z.to_nat 16384)).
  replace (Z.to_nat 16384) with (length c) by apply cells_length.
  rewrite drop_app_length.
  change 12%nat with (length suffix_fields). apply take_app_length.
Qed.

Lemma dfu_body_bytes image :
  block_ok image → Forall (λ b, 0 ≤ b < 256) (dfu_body image).
Proof.
  intros Hok. unfold dfu_body. apply Forall_app. split.
  - apply cells_bytes; [by apply block_ok_with_crc14|lia..].
  - unfold suffix_fields. repeat constructor; vm_compute; done.
Qed.

(** ** main *)

Lemma main_opened_inv e fs inp outp o :
  main_opened e fs inp outp = Ret o →
  ∃ st,
    build (malloc (heap e) 16400) (fresh (stack e) 0 256)
      (default [] (fs !! inp)) = Ret st
    ∧ block_ok (image st) ∧ status o = 0
    ∧ ((out_of_bounds (fl st) = true
        ∧ stderr o = [msg_out_of_bounds] ∧ files o = fs)
       ∨ (out_of_bounds (fl st) = false ∧ occupied (image st) = true
          ∧ stderr o = [msg_crc_overlap] ∧ files o = fs)
       ∨ (out_of_bounds (fl st) = false ∧ occupied (image st) = false
          ∧ stderr o = []
          ∧ files o = <[outp := dfu_file (image st)]> fs)).
Proof.
  unfold main_opened, convert.
  change (PM_SIZE_IN_BYTES + DFU_SUFFIX) with 16400.
  pose proof (block_ok_malloc (heap e)) as Hblock.
  pose proof (fresh_length (stack e) 0 256) as Hline.
  generalize dependent (malloc (heap e) 16400).
  generalize dependent (fresh (stack e) 0 256).
  intros line Hline block Hblock H.
  apply bind_Ret_inv in H as ([diag written] & H & Ho).
  apply bind_Ret_inv in H as (st & Hb & Hf).
  exists st.
  pose proof (build_block_ok _ _ _ _ Hblock Hline Hb) as Hok.
  rewrite finish_ok in Hf by exact Hok.
  split; [exact Hb|]. split; [exact Hok|].
  split; [by injection Ho as <-|].
  destruct (out_of_bounds (fl st)).
  { left. injection Hf as <- <-. by injection Ho as <-. }
  right. destruct (occupied (image st)).
  { left. injection Hf as <- <-. by injection Ho as <-. }
  right. injection Hf as <- <-. by injection Ho as <-.
Qed.

(** A run of [main] that returns either failed before the conversion, with
    status -1, or opened both files and ran the conversion. *)
Lemma main_inv e fs argv o :
  main e fs argv = Ret o →
  (status o = -1)
  ∨ ∃ inp outp,
      argv !! 1%nat = Some inp ∧ argv !! 2%nat = Some outp
      ∧ main_opened e (<[outp := []]> fs) inp outp = Ret o.
Proof.
  intros H. unfold main in H.
  destruct (decide (length argv < 3)%nat) as [?|Hlen];
    [left; by injection H as <-|].
  destruct (malloc_ok e); [|left; by injection H as <-].
  destruct (argv !! 1%nat) as [inp|] eqn:E1;
    [|apply lookup_ge_None in E1; lia].
  destruct (argv !! 2%nat) as [outp|] eqn:E2;
    [|apply lookup_ge_None in E2; lia].
  cbn [default from_option id] in H.
  destruct (fs !! inp); [|left; by injection H as <-].
  destruct (writable e outp); [|left; by injection H as <-].
  right. exists inp, outp. split; [reflexivity|]. split; [reflexivity|].
  exact H.
Qed.

Lemma main_converts e fs argv inp outp content :
  argv !! 1%nat = Some inp → argv !! 2%nat = Some outp →
  malloc_ok e = true → fs !! inp = Some content →
  writable e outp = true →
  main e fs argv = main_opened e (<[outp := []]> fs) inp outp.
Proof.
  intros H1 H2 Hm Hi Hw. unfold main.
  pose proof (lookup_lt_Some _ _ _ H2) as Hlen.
  destruct (decide (length argv < 3)%nat) as [?|_]; [lia|].
  rewrite Hm, H1, H2. cbn [default from_option id].
  rewrite Hi, Hw. reflexivity.
Qed.

Lemma main_opened_build e fs inp outp st :
  build (malloc (heap e) 16400) (fresh (stack e) 0 256)
    (default [] (fs !! inp)) = Ret st →
  block_ok (image st)
  ∧ main_opened e fs inp outp =
      '(diag, written) ← finish st;
      Ret (mkOutcome 0 diag
             (match written with
              | Some bytes => <[outp := bytes]> fs
              | None => fs
              end)).
Proof.
  unfold main_opened, convert.
  change (PM_SIZE_IN_BYTES + DFU_SUFFIX) with 16400.
  pose proof (block_ok_malloc (heap e)) as Hblock.
  pose proof (fresh_length (stack e) 0 256) as Hline.
  generalize dependent (malloc (heap e) 16400).
  generalize dependent (fresh (stack e) 0 256).
  intros line Hline block Hblock Hb.
  split; [exact (build_block_ok _ _ _ _ Hblock Hline Hb)|].
  rewrite Hb. reflexivity.
Qed.

(** [main] always ends: with an outcome, or at an access outside an
    array. *)
Lemma main_ends e fs argv :
  (∃ o, main e fs argv = Ret o) ∨ (∃ f, main e fs argv = Fault f).
Proof.
  unfold main. destruct (decide _); [left; eauto|].
  destruct (malloc_ok e); [|left; eauto]. cbv zeta.
  destruct (fs !! _); [|left; eauto].
  destruct (writable e _); [|left; eauto].
  unfold main_opened, convert.
  change (PM_SIZE_IN_BYTES + DFU_SUFFIX) with 16400.
  pose proof (block_ok_malloc (heap e)) as Hblock.
  pose proof (fresh_length (stack e) 0 256) as Hline.
  generalize dependent (malloc (heap e) 16400).
  generalize dependent (fresh (stack e) 0 256).
  intros line Hline block Hblock.
  destruct (build_total block line
              (default [] (<[default ""%string (argv !! 2%nat) := []]> fs
                             !! default ""%string (argv !! 1%nat)))
              Hblock Hline) as [(st & -> & Hok)|(f & ->)];
    [|right; by exists f].
  rewrite bind_Ret, finish_ok by exact Hok. left.
  destruct (out_of_bounds (fl st)); [eauto|].
  destruct (occupied (image st)); eauto.
Qed.

Lemma occupied_iff image :
  block_ok image →
  occupied image = true
  ↔ ¬ (image !! 0x3EFE = Some 0xFF ∧ image !! 0x3EFF = Some 0x3F).
Proof.
  intros Hok. unfold occupied.
  destruct (block_ok_lookup image 0x3EFE Hok) as (b0 & -> & _); [lia|].
  destruct (block_ok_lookup image 0x3EFF Hok) as (b1 & -> & _); [lia|].
  cbn [default from_option id].
  destruct (Z.eqb_spec 0xFF b0) as [<-|H0], (Z.eqb_spec 0x3F b1) as [<-|H1];
    cbn [negb orb]; split; try done.
  - intros H. by destruct H.
  - intros _ [_ [=]]. done.
  - intros _ [[=] _]. done.
  - intros _ [[=] _]. done.
Qed.

(** C7: a run of [main] that returns status 0 and prints nothing wrote, at
    the path given as second argument, a file of 16400 bytes whose bytes
    16384 to 16395 are FF FF, 01 00, 34 12, 00 01, 'U' 'F' 'D', 10. *)
Theorem C7_output_size_and_suffix e fs argv o :
  main e fs argv = Ret o → status o = 0 → stderr o = [] →
  ∃ outp bytes,
    argv !! 2%nat = Some outp ∧ files o !! outp = Some bytes
    ∧ Z.of_nat (length bytes) = 16384 + 16
    ∧ take 12 (drop (Z.to_nat 16384) bytes)
      = [0xFF; 0xFF; 0x01; 0x00; 0x34; 0x12; 0x00; 0x01;
         chr "U"; chr "F"; chr "D"; 0x10].
Proof.
  intros Hmain Hst Herr.
  destruct (main_inv _ _ _ _ Hmain) as [E|(inp & outp & _ & Hout & Hrun)];
    [rewrite Hst in E; discriminate|].
  destruct (main_opened_inv _ _ _ _ _ Hrun)
    as (st & _ & _ & _ & [(_ & E & _)|[(_ & _ & E & _)|(_ & _ & _ & Hf)]]);
    [rewrite Herr in E; discriminate..|].
  exists outp, (dfu_file (image st)). split; [exact Hout|].
  split; [rewrite Hf; apply lookup_insert_eq|].
  split; [rewrite dfu_file_length; lia|].
  apply dfu_file_suffix.
Qed.

(** C5: in the file that a successful run wrote, the last four bytes are
    the little-endian bytes of the register that the table-driven step,
    started at 0xFFFFFFFF, reaches over the first 16396 bytes of the file
    (program memory and the 12 fixed bytes of the suffix), with no final
    inversion; and that register is the one of the bit-by-bit reflected
    computation with polynomial 0xEDB88320. *)
Theorem C5_dwCRC_is_raw_crc32 e fs argv o :
  main e fs argv = Ret o → status o = 0 → stderr o = [] →
  ∃ outp bytes,
    argv !! 2%nat = Some outp ∧ files o !! outp = Some bytes
    ∧ drop (Z.to_nat (16384 + 12)) bytes
      = le32 (fold_left crc32_step (take (Z.to_nat (16384 + 12)) bytes)
                0xFFFFFFFF)
    ∧ fold_left crc32_step (take (Z.to_nat (16384 + 12)) bytes) 0xFFFFFFFF
      = crc32_raw (take (Z.to_nat (16384 + 12)) bytes).
Proof.
  intros Hmain Hst Herr.
  destruct (main_inv _ _ _ _ Hmain) as [E|(inp & outp & _ & Hout & Hrun)];
    [rewrite Hst in E; discriminate|].
  destruct (main_opened_inv _ _ _ _ _ Hrun)
    as (st & _ & Hok & _ & [(_ & E & _)|[(_ & _ & E & _)|(_ & _ & _ & Hf)]]);
    [rewrite Herr in E; discriminate..|].
  exists outp, (dfu_file (image st)). split; [exact Hout|].
  split; [rewrite Hf; apply lookup_insert_eq|].
  change (16384 + 12) with 16396. rewrite dfu_file_body.
  split; [apply dfu_file_dwCRC|].
  apply crc32_fold_bitwise, dfu_body_bytes, Hok.
Qed.

(** C2, amended: when the record loop ends with [out_of_bounds] set, or the
    CRC-14 pass finds the checksum cells occupied, [main] prints the one
    diagnostic of that condition, returns 0 and writes nothing; the output
    file, created or truncated when it was opened, is left empty. *)
Theorem C2_validation_failure e fs argv inp outp content msg :
  argv !! 1%nat = Some inp → argv !! 2%nat = Some outp →
  malloc_ok e = true → fs !! inp = Some content → writable e outp = true →
  (st ← build (malloc (heap e) 16400) (fresh (stack e) 0 256)
          (default [] (<[outp := []]> fs !! inp));
   Ret (verdict st)) = Ret (Some msg) →
  main e fs argv = Ret (mkOutcome 0 [msg] (<[outp := []]> fs))
  ∧ (<[outp := []]> fs) !! outp = Some []
  ∧ (msg = msg_out_of_bounds ∨ msg = msg_crc_overlap).
Proof.
  intros H1 H2 Hm Hi Hw Hv.
  rewrite (main_converts e fs argv inp outp content H1 H2 Hm Hi Hw).
  apply bind_Ret_inv in Hv as (st & Hb & Hv).
  destruct (main_opened_build e _ inp outp st Hb) as [Hok ->]. clear Hb.
  rewrite finish_ok by exact Hok. unfold verdict in Hv.
  split; [|split; [apply lookup_insert_eq|]];
    destruct (out_of_bounds (fl st)); try destruct (occupied (image st));
    try discriminate; injection Hv as <-; try reflexivity; auto.
Qed.

(** A type-00 record of two bytes at 0x3EFE, applied to a block. *)
Lemma process_line_seed (line : list Z) st b0 b1 :
  length line = 256%nat → record_type line "0" "0" →
  upper_address st = 0 → block_ok (image st) →
  readhex line 1 2 = Ret 2 → readhex line 3 4 = Ret 0x3EFE →
  readhex line 9 2 = Ret b0 → readhex line 11 2 = Ret b1 →
  process_line line st =
    Ret (false,
         mkState (<[0x3EFF := b1 mod 256]> (<[0x3EFE := b0 mod 256]> (image st)))
                 (fl st) 0).
Proof.
  intros Hl (H0 & H7 & H8) Hu Hok Hc Ha Hb0 Hb1.
  unfold process_line. rewrite bool_decide_eq_true_2 by exact H0.
  rewrite Hc, bind_Ret, Ha, bind_Ret.
  rewrite (strncmp2_true line 7 "0" "0" H7 H8), Hu.
  change (true && (0 =? 0)) with true. cbv iota.
  change (Z.to_nat 2) with 2%nat.
  rewrite (data_loop_in_window 1 line 9 0x3EFE (image st) (fl st) b0)
    by (exact Hok || lia || exact Hb0).
  destruct (decide (0x3EFE < 16400)) as [_|?]; [|lia].
  change (9 + 2) with 11. change (0x3EFE + 1) with 0x3EFF.
  rewrite (data_loop_in_window 0 line 11 0x3EFF _ (fl st) b1)
    by ((apply block_ok_insert; [exact Hok|lia]) || lia || exact Hb1).
  destruct (decide (0x3EFF < 16400)) as [_|?]; [|lia].
  reflexivity.
Qed.

(** C6: the pass returns the overlap flag set exactly when the two cells at
    0x3EFE and 0x3EFF do not hold 0xFF and 0x3F when the pass reaches
    them; a run whose record loop ends without [out_of_bounds] and with
    another pair in those cells prints the CRC diagnostic, returns 0 and
    writes nothing; and a type-00 record that stores such a pair there
    leaves a state from which the rest of [main] does so. *)
Theorem C6_crc_overlap :
  (∀ image, block_ok image →
     ∃ image' overlap,
       crc14_pass image = Ret (image', overlap)
       ∧ (overlap = true
          ↔ ¬ (image !! 0x3EFE = Some 0xFF ∧ image !! 0x3EFF = Some 0x3F)))
  ∧ (∀ e fs argv inp outp content b0 b1,
       argv !! 1%nat = Some inp → argv !! 2%nat = Some outp →
       malloc_ok e = true → fs !! inp = Some content →
       writable e outp = true →
       (st ← build (malloc (heap e) 16400) (fresh (stack e) 0 256)
               (default [] (<[outp := []]> fs !! inp));
        Ret (out_of_bounds (fl st),
             image st !! 0x3EFE, image st !! 0x3EFF))
       = Ret (false, Some b0, Some b1) →
       (b0, b1) ≠ (0xFF, 0x3F) →
       main e fs argv
       = Ret (mkOutcome 0 [msg_crc_overlap] (<[outp := []]> fs)))
  ∧ (∀ (line : list Z) st b0 b1,
       length line = 256%nat → record_type line "0" "0" →
       upper_address st = 0 → block_ok (image st) →
       out_of_bounds (fl st) = false →
       readhex line 1 2 = Ret 2 → readhex line 3 4 = Ret 0x3EFE →
       readhex line 9 2 = Ret b0 → readhex line 11 2 = Ret b1 →
       (b0 mod 256, b1 mod 256) ≠ (0xFF, 0x3F) →
       ∃ st', process_line line st = Ret (false, st')
              ∧ finish st' = Ret ([msg_crc_overlap], None)).
Proof.
  split_and!.
  - intros image Hok. exists (with_crc14 image
      (crc14_fold image (window 0x400 (Z.to_nat 7551)) 0)), (occupied image).
    split; [by apply crc14_pass_eq|by apply occupied_iff].
  - intros e fs argv inp outp content b0 b1 H1 H2 Hm Hi Hw Hv Hne.
    rewrite (main_converts e fs argv inp outp content H1 H2 Hm Hi Hw).
    apply bind_Ret_inv in Hv as (st & Hb & Hv).
    destruct (main_opened_build e _ inp outp st Hb) as [Hok ->]. clear Hb.
    injection Hv as Hoob E0 E1.
    rewrite finish_ok, Hoob by exact Hok.
    rewrite (proj2 (occupied_iff _ Hok)); [reflexivity|].
    intros [E0' E1']. apply Hne. congruence.
  - intros line st b0 b1 Hl Hr Hu Hok Hoob Hc Ha Hb0 Hb1 Hne.
    eexists. split; [by apply process_line_seed|].
    assert (block_ok (<[0x3EFF := b1 mod 256]>
                        (<[0x3EFE := b0 mod 256]> (image st)))) as Hok'
      by (apply block_ok_insert; [apply block_ok_insert; [exact Hok|lia]|lia]).
    rewrite finish_ok by exact Hok'.
    cbn [image fl]. rewrite Hoob.
    rewrite (proj2 (occupied_iff _ Hok')); [reflexivity|].
    rewrite lookup_insert_eq, lookup_insert_ne, lookup_insert_eq by lia.
    intros [E0 E1]. apply Hne. congruence.
Qed.

(** ** Runs on the test inputs *)

Lemma blank_ok : block_ok blank ∧ erased blank 0 16383.
Proof.
  destruct (init_loop_block (malloc (heap env0) 16400))
    as (filled & E & Hok & Her & _); [apply block_ok_malloc|].
  unfold blank. rewrite E. by split.
Qed.

Lemma C3_crc14_pass_window_witness :
  ∃ crc image',
    crc14_pass blank = Ret (image', occupied blank)
    ∧ crc = crc14_fold blank (window 0x400 (Z.to_nat 7551)) 0
    ∧ image' !! (2 * HIGH_ENDURANCE_ADDRESS - 2) = Some (crc mod 256)
    ∧ image' !! (2 * HIGH_ENDURANCE_ADDRESS - 1) = Some (crc / 256)
    ∧ crc = 0x0B86.
Proof.
  destruct (C3_crc14_pass_window blank (proj1 blank_ok))
    as (crc & image' & H1 & H2 & _ & H4 & H5 & _ & H7).
  exists crc, image'. split_and!; [exact H1|exact H2|exact H4|exact H5|].
  apply H7. intros a Ha. apply (proj2 blank_ok). lia.
Defined.

(** The run on [good_hex] returns 0 and prints nothing. *)
Lemma good_run :
  ∃ o, run good_hex = Ret o ∧ status o = 0 ∧ stderr o = [].
Proof.
  assert ((o ← run good_hex; Ret (status o, stderr o)) = Ret (0, []))
    as H by (vm_compute; reflexivity).
  apply bind_Ret_inv in H as (o & Hrun & H). exists o.
  injection H as Hst Herr. by split_and!.
Qed.

Lemma C7_output_size_and_suffix_witness :
  ∃ o outp bytes,
    run good_hex = Ret o
    ∧ argv0 !! 2%nat = Some outp ∧ files o !! outp = Some bytes
    ∧ Z.of_nat (length bytes) = 16384 + 16
    ∧ take 12 (drop (Z.to_nat 16384) bytes)
      = [0xFF; 0xFF; 0x01; 0x00; 0x34; 0x12; 0x00; 0x01;
         chr "U"; chr "F"; chr "D"; 0x10].
Proof.
  destruct good_run as (o & Hrun & Hst & Herr).
  destruct (C7_output_size_and_suffix env0 (fs_of good_hex) argv0 o
              Hrun Hst Herr) as (outp & bytes & H).
  exists o, outp, bytes. split; [exact Hrun|exact H].
Defined.

Lemma C5_dwCRC_is_raw_crc32_witness :
  ∃ o outp bytes,
    run good_hex = Ret o
    ∧ argv0 !! 2%nat = Some outp ∧ files o !! outp = Some bytes
    ∧ drop (Z.to_nat (16384 + 12)) bytes
      = le32 (fold_left crc32_step (take (Z.to_nat (16384 + 12)) bytes)
                0xFFFFFFFF)
    ∧ fold_left crc32_step (take (Z.to_nat (16384 + 12)) bytes) 0xFFFFFFFF
      = crc32_raw (take (Z.to_nat (16384 + 12)) bytes).
Proof.
  destruct good_run as (o & Hrun & Hst & Herr).
  destruct (C5_dwCRC_is_raw_crc32 env0 (fs_of good_hex) argv0 o
              Hrun Hst Herr) as (outp & bytes & H).
  exists o, outp, bytes. split; [exact Hrun|exact H].
Defined.

Lemma C2_validation_failure_witness :
  main env0 (fs_of low_hex) argv0 =
    Ret (mkOutcome 0 [msg_out_of_bounds]
           (<["out.dfu"%string := []]> (fs_of low_hex)))
  ∧ (<["out.dfu"%string := []]> (fs_of low_hex)) !! "out.dfu"%string
    = Some []
  ∧ (msg_out_of_bounds = msg_out_of_bounds
     ∨ msg_out_of_bounds = msg_crc_overlap).
Proof.
  refine (C2_validation_failure env0 (fs_of low_hex) argv0
            "in.hex" "out.dfu" (hexfile low_hex) msg_out_of_bounds
            _ _ _ _ _ _);
    vm_compute; reflexivity.
Defined.

(** C2 as stated fails: on an input with a byte below 0x400 the run prints
    the diagnostic and returns 0, and a file exists at the output path,
    where there was none before. *)
Lemma C2_counterexample :
  fs_of low_hex !! "out.dfu"%string = None
  ∧ out_of_bounds (fl (built low_hex)) = true
  ∧ ∃ o, run low_hex = Ret o
      ∧ status o = 0 ∧ stderr o = [msg_out_of_bounds]
      ∧ files o !! "out.dfu"%string = Some []
      ∧ files o !! "out.dfu"%string ≠ None.
Proof.
  split; [vm_compute; reflexivity|]. split; [vm_compute; reflexivity|].
  exists (mkOutcome 0 [msg_out_of_bounds]
            (<["out.dfu"%string := []]> (fs_of low_hex))).
  split; [vm_compute; reflexivity|]. cbn [status stderr files].
  split; [reflexivity|]. split; [reflexivity|].
  rewrite lookup_insert_eq. split; [reflexivity|discriminate].
Qed.

Lemma C6_crc_overlap_witness :
  (∃ image' overlap,
     crc14_pass blank = Ret (image', overlap)
     ∧ (overlap = true
        ↔ ¬ (blank !! 0x3EFE = Some 0xFF ∧ blank !! 0x3EFF = Some 0x3F)))
  ∧ main env0 (fs_of seeded_hex) argv0
    = Ret (mkOutcome 0 [msg_crc_overlap]
             (<["out.dfu"%string := []]> (fs_of seeded_hex)))
  ∧ ∃ st', process_line (line_of ":023EFE000000C2")
             (mkState blank (mkFlags false false) 0) = Ret (false, st')
           ∧ finish st' = Ret ([msg_crc_overlap], None).
Proof.
  destruct C6_crc_overlap as (Hpass & Hrun & Hrec).
  split; [exact (Hpass blank (proj1 blank_ok))|]. split.
  - refine (Hrun env0 (fs_of seeded_hex) argv0 "in.hex"%string
              "out.dfu"%string (hexfile seeded_hex) 0 0 _ _ _ _ _ _ _);
      try (vm_compute; reflexivity).
    discriminate.
  - refine (Hrec (line_of ":023EFE000000C2")
              (mkState blank (mkFlags false false) 0) 0 0
              _ _ _ (proj1 blank_ok) _ _ _ _ _ _);
      try (vm_compute; reflexivity).
    + split_and!; vm_compute; reflexivity.
    + vm_compute. discriminate.
Defined.

(** ** The two accesses outside an array *)

(** C1: a record with one byte at 0x7FFF passes the test of the payload
    loop, which then stores at offset 32767 of a block of 16400 bytes; so
    does the first address past the block, 0x4010. *)
Theorem C1_store_outside_block :
  run high_hex = Fault (ImageWrite 0x7FFF)
  ∧ run past_hex = Fault (ImageWrite 16400).
Proof. split; vm_compute; reflexivity. Qed.

(** C10: a record that declares 255 bytes makes the payload loop read the
    line array at offset 256, one past its last cell. *)
Theorem C10_read_outside_line :
  run long_hex = Fault (LineRead 256).
Proof. vm_compute. reflexivity. Qed.

(** The payload of a record is read at offsets 9 to 9 + 2 * count - 1, so
    123 bytes is the longest payload that stays inside the array. *)
Example count_123_inside :
  probe [(":7B040000" +:+ zeros 123 +:+ "81")%string; eof_record] 0x400 2
  = Ret ([], [0x00; 0x00]).
Proof. vm_compute. reflexivity. Qed.

Example count_124_outside :
  run [(":7C040000" +:+ zeros 124 +:+ "80")%string; eof_record]
  = Fault (LineRead 256).
Proof. vm_compute. reflexivity. Qed.

(** ** Further runs *)

(** The addresses on either side of the lower end of the address gate, and
    the first address above it. *)
Example gate_0x3FF :
  probe [":0103FF00AA53"; eof_record]%string 0 0
  = Ret ([msg_out_of_bounds], []).
Proof. vm_compute. reflexivity. Qed.

Example gate_0x400 :
  probe [":01040000AA51"; eof_record]%string 0x400 2
  = Ret ([], [0xAA; 0x3F]).
Proof. vm_compute. reflexivity. Qed.

Example gate_0x8000 :
  probe [":01800000AAD5"; eof_record]%string 0 0
  = Ret ([msg_out_of_bounds], []).
Proof. vm_compute. reflexivity. Qed.

(** Data after extended address 0001 is ignored, data after 0000 is
    applied. *)
Example gated_run :
  probe gated_hex 0x400 4 = Ret ([], [0xFF; 0x3F; 0x78; 0x56]).
Proof. vm_compute. reflexivity. Qed.

(** The file of [good_hex]: the two bytes of the record at 0x400, and the
    CRC-14 of the image at 0x3EFE. *)
Example good_file :
  probe good_hex 0x400 4 = Ret ([], [0x34; 0x12; 0xFF; 0x3F]).
Proof. vm_compute. reflexivity. Qed.

(** * Further properties *)

(** ** Lines that the record loop passes over *)

Lemma fgets_take_head n c (tl : list Z) :
  ∃ g, fst (fgets_take (S n) (c :: tl)) = c :: g.
Proof.
  cbn [fgets_take]. destruct (c =? 10); [by exists []|].
  destruct (fgets_take n tl) as [g r]. by exists g.
Qed.

(** What [fgets] delivers starts with the first character of the stream,
    and what it leaves is a suffix of the stream. *)
Lemma fgets_first (line input line' rest : list Z) :
  fgets line input = Some (line', rest) →
  ∃ c got, input = (c :: got) ++ rest ∧ line' !! 0%nat = Some c.
Proof.
  unfold fgets. destruct input as [|c tl]; [done|].
  destruct (fgets_take_head 254 c tl) as [g Hg].
  destruct (fgets_take 255 (c :: tl)) as [got r] eqn:E.
  cbn [fst] in Hg. subst got. intros [= <- <-].
  exists c, g. split; [|done].
  by destruct (fgets_take_length _ _ _ _ E) as [_ ->].
Qed.

Lemma process_line_no_colon (line : list Z) st c :
  line !! 0%nat = Some c → c ≠ chr ":" →
  process_line line st = Ret (false, st).
Proof.
  intros H0 Hc. unfold process_line.
  rewrite bool_decide_eq_false_2; [done|]. rewrite H0. congruence.
Qed.

Lemma read_loop_no_colon fuel : ∀ (input line : list Z) st,
  Forall (λ c, c ≠ chr ":") input → (length input < fuel)%nat →
  read_loop fuel input line st = Ret st.
Proof.
  induction fuel as [|fuel IH]; intros input line st Hin Hf; [lia|].
  cbn [read_loop]. destruct (fgets line input) as [[line' rest]|] eqn:E;
    [|done].
  destruct (fgets_first _ _ _ _ E) as (c & got & -> & H0).
  apply Forall_app in Hin as [Hgot Hrest].
  rewrite (process_line_no_colon line' st c H0)
    by (by apply Forall_cons in Hgot as [? _]).
  rewrite bind_Ret. apply IH; [done|].
  rewrite length_app in Hf. cbn [length] in Hf. lia.
Qed.

Lemma dfu_file_lookup image a :
  0 ≤ a < 16384 →
  dfu_file image !! Z.to_nat a
  = Some (default 0
            (with_crc14 image
               (crc14_fold image (window 0x400 (Z.to_nat 7551)) 0) !! a)).
Proof.
  intros Ha. unfold dfu_file, dfu_body.
  rewrite <- app_assoc, lookup_app_l by (rewrite cells_length; lia).
  rewrite cells_lookup by lia. do 3 f_equal. lia.
Qed.

(** X1: an input file without any ':' (the empty file among them) gives the
    blank image: status 0, no diagnostic, and a file of 16400 bytes whose
    program memory is the erased pattern, except for the CRC-14 of the
    erased window, 0x0B86, at 0x3EFE and 0x3EFF; the bytes that [malloc]
    left in the block do not show. *)
Theorem blank_output e fs argv inp outp content :
  argv !! 1%nat = Some inp → argv !! 2%nat = Some outp →
  malloc_ok e = true → fs !! inp = Some content → writable e outp = true →
  Forall (λ c, c ≠ chr ":") (default [] (<[outp := []]> fs !! inp)) →
  ∃ bytes,
    main e fs argv
    = Ret (mkOutcome 0 [] (<[outp := bytes]> (<[outp := []]> fs)))
    ∧ Z.of_nat (length bytes) = 16400
    ∧ ∀ a, 0 ≤ a < 16384 →
        bytes !! Z.to_nat a
        = Some (if decide (a = 0x3EFE) then 0x86
                else if decide (a = 0x3EFF) then 0x0B
                else sentinel a).
Proof.
  intros H1 H2 Hm Hi Hw Hin.
  rewrite (main_converts e fs argv inp outp content H1 H2 Hm Hi Hw).
  unfold main_opened, convert, build.
  change (PM_SIZE_IN_BYTES + DFU_SUFFIX) with 16400.
  destruct (init_loop_block _ (block_ok_malloc (heap e)))
    as (filled & -> & Hok & Her & _).
  rewrite bind_Ret, read_loop_no_colon by (exact Hin || lia).
  rewrite bind_Ret, finish_ok by exact Hok. cbn [fl image out_of_bounds].
  assert (occupied filled = false) as ->.
  { unfold occupied. rewrite !Her by lia. reflexivity. }
  rewrite bind_Ret. exists (dfu_file filled).
  split; [reflexivity|]. split; [rewrite dfu_file_length; lia|].
  intros a Ha. rewrite dfu_file_lookup by exact Ha.
  rewrite crc14_fold_erased by (intros a' Ha'; apply Her; lia).
  repeat case_decide; subst.
  - by rewrite with_crc14_lo.
  - by rewrite with_crc14_hi.
  - rewrite with_crc14_other, Her by lia. reflexivity.
Qed.

Lemma blank_output_witness :
  ∃ bytes,
    main env0 (fs_of []) argv0
    = Ret (mkOutcome 0 []
             (<["out.dfu"%string := bytes]>
                (<["out.dfu"%string := []]> (fs_of []))))
    ∧ Z.of_nat (length bytes) = 16400
    ∧ ∀ a, 0 ≤ a < 16384 →
        bytes !! Z.to_nat a
        = Some (if decide (a = 0x3EFE) then 0x86
                else if decide (a = 0x3EFF) then 0x0B
                else sentinel a).
Proof.
  refine (blank_output env0 (fs_of []) argv0 "in.hex" "out.dfu" []
            _ _ _ _ _ _); try reflexivity.
  constructor.
Defined.

Lemma strncmp2_false0 (line : list Z) (off : nat) c0 c1 x :
  line !! off = Some x → x ≠ chr c0 → strncmp2 line off c0 c1 = false.
Proof.
  intros H0 Hne. unfold strncmp2.
  rewrite (bool_decide_eq_false_2 (_ !! off = _)); [done|].
  rewrite H0. congruence.
Qed.

(** X2: a line that does not start with ':' is passed over, and so is a record
    whose type is none of 00, 04 and 01: the state stays as it is and the
    loop goes on. *)
Theorem ignored_lines (line : list Z) (st : state) :
  (∀ c, line !! 0%nat = Some c → c ≠ chr ":" →
        process_line line st = Ret (false, st))
  ∧ (∀ c7 c8, length line = 256%nat → line !! 0%nat = Some (chr ":") →
        line !! 7%nat = Some c7 → line !! 8%nat = Some c8 →
        c7 ≠ chr "0" ∨ (c8 ≠ chr "0" ∧ c8 ≠ chr "4" ∧ c8 ≠ chr "1") →
        process_line line st = Ret (false, st)).
Proof.
  split; [intros c; apply process_line_no_colon|].
  intros c7 c8 Hl H0 H7 H8 Hty.
  destruct (process_line_header line st Hl H0)
    as (count & address & _ & _ & _ & _ & ->).
  destruct Hty as [Hne|(Hn0 & Hn4 & Hn1)].
  - by rewrite !(strncmp2_false0 line 7 _ _ c7 H7 Hne).
  - rewrite (strncmp2_false line 7 "0" "0" c8 H8 Hn0).
    rewrite (strncmp2_false line 7 "0" "4" c8 H8 Hn4).
    by rewrite (strncmp2_false line 7 "0" "1" c8 H8 Hn1).
Qed.

Lemma ignored_lines_witness :
  process_line (line_of "; a comment") (mkState ∅ (mkFlags false false) 0)
  = Ret (false, mkState ∅ (mkFlags false false) 0)
  ∧ process_line (line_of ":020000021000EC")
      (mkState ∅ (mkFlags false false) 0)
    = Ret (false, mkState ∅ (mkFlags false false) 0).
Proof.
  split.
  - refine (proj1 (ignored_lines _ _) (chr ";") _ _);
      [reflexivity|discriminate].
  - refine (proj2 (ignored_lines _ _) (chr "0") (chr "2") _ _ _ _ _);
      try reflexivity.
    right. split_and!; discriminate.
Defined.

(** ** The end-of-file record *)

(** X3: a type-01 record ends the record loop at once: the state is the one
    before the record, and what follows it in the file is not looked at. *)
Theorem eof_record_stops fuel (input line line' rest : list Z) st :
  length line = 256%nat → fgets line input = Some (line', rest) →
  record_type line' "0" "1" →
  read_loop (S fuel) input line st = Ret st.
Proof.
  intros Hl E (H0 & H7 & H8).
  destruct (fgets_spec _ _ _ _ Hl E) as [Hl' _].
  cbn [read_loop]. rewrite E.
  destruct (process_line_header line' st Hl' H0)
    as (count & address & _ & _ & _ & _ & ->).
  rewrite (strncmp2_false line' 7 "0" "0" _ H8) by discriminate.
  rewrite (strncmp2_false line' 7 "0" "4" _ H8) by discriminate.
  by rewrite (strncmp2_true line' 7 "0" "1" H7 H8).
Qed.

Lemma eof_record_stops_witness :
  read_loop 1 (hexfile [eof_record; ":020400003412B4"]%string)
    (fresh (λ _, 0) 0 256) (mkState ∅ (mkFlags false false) 0)
  = Ret (mkState ∅ (mkFlags false false) 0).
Proof.
  refine (eof_record_stops 0 _ _ (line_of eof_record)
            (hexfile [":020400003412B4"]%string) _ _ _ _);
    [reflexivity|reflexivity|split_and!; reflexivity].
Defined.

(** ** The flags through the record loop *)

Lemma data_loop_flags count (line : list Z) :
  ∀ ptr address image f image' f',
  data_loop count line ptr address image f = Ret (image', f') →
  crc_overlap f' = crc_overlap f
  ∧ (out_of_bounds f = true → out_of_bounds f' = true).
Proof.
  induction count as [|count IH]; intros ptr address image f image' f' H.
  - cbn in H. by injection H as <- <-.
  - rewrite data_loop_S in H.
    apply bind_Ret_inv in H as ([image1 f1] & H1 & H2).
    destruct (IH _ _ _ _ _ _ H2) as [Hc Ho].
    destruct (_ || _).
    + injection H1 as <- <-. split; [exact Hc|]. intros _. by apply Ho.
    + apply bind_Ret_inv in H1 as (v & _ & H1).
      apply bind_Ret_inv in H1 as (image2 & _ & H1).
      injection H1 as <- <-. by split.
Qed.

Lemma process_line_flags (line : list Z) st brk st' :
  process_line line st = Ret (brk, st') →
  out_of_bounds (fl st) = true → out_of_bounds (fl st') = true.
Proof.
  intros H Ho. unfold process_line in H.
  case_bool_decide; [|by injection H as <- <-].
  apply bind_Ret_inv in H as (count & _ & H).
  apply bind_Ret_inv in H as (address & _ & H).
  destruct (_ && _).
  - apply bind_Ret_inv in H as ([image1 f1] & H1 & H).
    injection H as <- <-. cbn [fl].
    by apply (data_loop_flags _ _ _ _ _ _ _ _ H1).
  - destruct (strncmp2 line 7 "0" "4").
    + apply bind_Ret_inv in H as (u & _ & H). by injection H as <- <-.
    + destruct (strncmp2 line 7 "0" "1"); by injection H as <- <-.
Qed.

(** X4: once [out_of_bounds] is set no later record clears it: the record loop
    ends with it set, and the run ends with the diagnostic. *)
Theorem out_of_bounds_sticky fuel : ∀ (input line : list Z) st,
  out_of_bounds (fl st) = true →
  ensures (read_loop fuel input line st)
    (λ st', out_of_bounds (fl st') = true
            ∧ finish st' = Ret ([msg_out_of_bounds], None)).
Proof.
  induction fuel as [|fuel IH]; intros input line st Ho; [exact I|].
  cbn [read_loop]. destruct (fgets line input) as [[line' rest]|].
  - destruct (process_line line' st) as [[brk st']| |] eqn:Ep;
      [|exact I..].
    rewrite bind_Ret.
    pose proof (process_line_flags _ _ _ _ Ep Ho) as Ho'.
    destruct brk; [|by apply IH].
    cbn [ensures]. unfold finish. by rewrite Ho'.
  - cbn [ensures]. unfold finish. by rewrite Ho.
Qed.

Lemma out_of_bounds_sticky_witness :
  ∃ st',
    read_loop 3 (hexfile good_hex) (fresh (λ _, 0) 0 256)
      (mkState blank (mkFlags true false) 0) = Ret st'
    ∧ out_of_bounds (fl st') = true
    ∧ finish st' = Ret ([msg_out_of_bounds], None).
Proof.
  pose proof (out_of_bounds_sticky 3 (hexfile good_hex)
                (fresh (λ _, 0) 0 256)
                (mkState blank (mkFlags true false) 0) eq_refl) as H.
  assert (returns (read_loop 3 (hexfile good_hex) (fresh (λ _, 0) 0 256)
                     (mkState blank (mkFlags true false) 0)) = true) as Hr
    by (vm_compute; reflexivity).
  destruct (read_loop 3 (hexfile good_hex) (fresh (λ _, 0) 0 256)
              (mkState blank (mkFlags true false) 0)) as [st'| |];
    [|discriminate Hr..].
  exists st'. split; [reflexivity|exact H].
Defined.

(** ** Records outside the address window *)

Lemma data_loop_outside_all count (line : list Z) : ∀ ptr address image f,
  0 ≤ address → address + Z.of_nat count < 2 ^ 32 →
  address + Z.of_nat count ≤ 0x400 ∨ 0x8000 ≤ address →
  data_loop count line ptr address image f =
    Ret (image, if count is O then f else mkFlags true (crc_overlap f)).
Proof.
  induction count as [|count IH]; intros ptr address image f Ha Hw Ho;
    [done|].
  rewrite data_loop_outside by lia.
  assert (wrap32 (address + 1) = address + 1) as ->
    by (unfold wrap32; apply Z.mod_small; lia).
  rewrite IH by lia. by destruct count.
Qed.

Lemma readhex_count_value (line : list Z) count :
  length line = 256%nat → readhex line 1 2 = Ret count → 0 ≤ count < 256.
Proof.
  intros Hl H. destruct (readhex_count line Hl) as (c & E & Hc).
  congruence.
Qed.

Lemma readhex_address_value (line : list Z) address :
  length line = 256%nat → readhex line 3 4 = Ret address →
  0 ≤ address < 65536.
Proof.
  intros Hl H.
  destruct (readhex_address line 3 Hl) as (c0 & c1 & c2 & c3 & _ & E); [lia|].
  change (Z.of_nat 3) with 3 in E.
  assert (address = hex_value [c0; c1; c2; c3]) as -> by congruence.
  apply hex_value_4_range.
Qed.

Lemma process_line_data (line : list Z) st count address :
  length line = 256%nat → record_type line "0" "0" →
  upper_address st = 0 →
  readhex line 1 2 = Ret count → readhex line 3 4 = Ret address →
  process_line line st =
    '(image', f') ←
      data_loop (Z.to_nat count) line 9 address (image st) (fl st);
    Ret (false, mkState image' f' 0).
Proof.
  intros Hl (H0 & H7 & H8) Hu Hc Ha. unfold process_line.
  rewrite bool_decide_eq_true_2 by exact H0.
  rewrite Hc, bind_Ret, Ha, bind_Ret.
  rewrite (strncmp2_true line 7 "0" "0" H7 H8), Hu. reflexivity.
Qed.

(** X5: a data record that lies wholly below 0x400, or starts at or above
    0x8000, sets [out_of_bounds], leaves the image as it is and reads none
    of its payload, whatever byte count it declares. *)
Theorem record_outside_window (line : list Z) st count address :
  length line = 256%nat → record_type line "0" "0" →
  upper_address st = 0 →
  readhex line 1 2 = Ret count → readhex line 3 4 = Ret address →
  0 < count → address + count ≤ 0x400 ∨ 0x8000 ≤ address →
  process_line line st =
    Ret (false,
         mkState (image st) (mkFlags true (crc_overlap (fl st))) 0).
Proof.
  intros Hl Hr Hu Hc Ha Hpos Hout.
  pose proof (readhex_count_value line count Hl Hc) as Hcr.
  pose proof (readhex_address_value line address Hl Ha) as Har.
  rewrite (process_line_data line st count address) by done.
  rewrite data_loop_outside_all by lia.
  rewrite bind_Ret. destruct (Z.to_nat count) eqn:E; [lia|reflexivity].
Qed.

Lemma record_outside_window_witness :
  process_line (line_of ":FF0000003412B7")
    (mkState ∅ (mkFlags false false) 0)
  = Ret (false, mkState ∅ (mkFlags true false) 0).
Proof.
  refine (record_outside_window (line_of ":FF0000003412B7")
            (mkState ∅ (mkFlags false false) 0) 255 0 _ _ _ _ _ _ _);
    try reflexivity.
  - split_and!; reflexivity.
  - left. vm_compute. discriminate.
Defined.

(** ** Records inside the window and inside the block *)

Lemma data_loop_safe count (line : list Z) : ∀ ptr address image f,
  block_ok image → length line = 256%nat →
  (ptr + 2 * count ≤ 256)%nat →
  0x400 ≤ address → address + Z.of_nat count ≤ 16400 →
  ∃ image',
    data_loop count line (Z.of_nat ptr) address image f = Ret (image', f)
    ∧ block_ok image'
    ∧ (∀ i : nat, (i < count)%nat →
         image' !! (address + Z.of_nat i)
         = Some (hex_value [default 0 (line !! (ptr + 2 * i)%nat);
                            default 0 (line !! (ptr + 2 * i + 1)%nat)]))
    ∧ (∀ a, ¬ address ≤ a < address + Z.of_nat count →
         image' !! a = image !! a).
Proof.
  induction count as [|count IH]; intros ptr address image f Hok Hl Hp Ha Hn.
  - exists image. split_and!; [done..|intros; lia|done].
  - destruct (line_cell line ptr Hl) as [c0 H0]; [lia|].
    destruct (line_cell line (S ptr) Hl) as [c1 H1]; [lia|].
    rewrite (data_loop_in_window count line _ address image f
               (hex_value [c0; c1]))
      by (done || lia || by apply readhex_2).
    destruct (decide (address < 16400)) as [_|?]; [|lia].
    pose proof (hex_value_2_range c0 c1) as Hv.
    rewrite (Z.mod_small (hex_value [c0; c1])) by lia.
    replace (Z.of_nat ptr + 2) with (Z.of_nat (ptr + 2)) by lia.
    destruct (IH (ptr + 2)%nat (address + 1)
                (<[address := hex_value [c0; c1]]> image) f)
      as (image' & -> & Hok' & Hb & Ho); [|done|lia..|].
    { rewrite <- (Z.mod_small (hex_value [c0; c1]) 256) by lia.
      apply block_ok_insert; [done|lia]. }
    exists image'. split_and!; [done..| |].
    + intros [|i] Hi.
      * rewrite Z.add_0_r, Ho by lia.
        rewrite lookup_insert_eq, !Nat.mul_0_r, !Nat.add_0_r.
        replace (ptr + 1)%nat with (S ptr) by lia.
        by rewrite H0, H1.
      * replace (address + Z.of_nat (S i)) with (address + 1 + Z.of_nat i)
          by lia.
        rewrite Hb by lia.
        replace (ptr + 2 * S i)%nat with (ptr + 2 + 2 * i)%nat by lia.
        reflexivity.
    + intros a Hna. rewrite Ho by lia. by rewrite lookup_insert_ne by lia.
Qed.

(** X6: a data record of at most 123 bytes that lies inside [0x400, 16400) is
    applied without fault: byte [i] of the payload, decoded from the two
    characters at offsets [9 + 2i] and [10 + 2i] of the line, is stored at
    [address + i]; no other cell changes, and no flag changes. *)
Theorem record_applied (line : list Z) st count address :
  length line = 256%nat → record_type line "0" "0" →
  upper_address st = 0 → block_ok (image st) →
  readhex line 1 2 = Ret count → readhex line 3 4 = Ret address →
  count ≤ 123 → 0x400 ≤ address → address + count ≤ 16400 →
  ∃ image',
    process_line line st = Ret (false, mkState image' (fl st) 0)
    ∧ (∀ i, 0 ≤ i < count →
         image' !! (address + i)
         = Some (hex_value
                   [default 0 (line !! Z.to_nat (9 + 2 * i));
                    default 0 (line !! Z.to_nat (10 + 2 * i))]))
    ∧ (∀ a, ¬ address ≤ a < address + count →
         image' !! a = image st !! a).
Proof.
  intros Hl Hr Hu Hok Hc Ha Hcount Hlo Hhi.
  pose proof (readhex_count_value line count Hl Hc) as Hcr.
  rewrite (process_line_data line st count address) by done.
  destruct (data_loop_safe (Z.to_nat count) line 9 address (image st) (fl st))
    as (image' & E & _ & Hb & Ho); [done|done|lia..|].
  change (Z.of_nat 9) with 9 in E. rewrite E, bind_Ret.
  exists image'. split; [reflexivity|]. split.
  - intros i Hi. specialize (Hb (Z.to_nat i)).
    rewrite Z2Nat.id in Hb by lia. rewrite Hb by lia.
    replace (Z.to_nat (9 + 2 * i)) with (9 + 2 * Z.to_nat i)%nat by lia.
    replace (Z.to_nat (10 + 2 * i)) with (9 + 2 * Z.to_nat i + 1)%nat by lia.
    reflexivity.
  - intros a Hna. apply Ho. lia.
Qed.

Lemma record_applied_witness :
  ∃ image',
    process_line (line_of ":020400003412B4")
      (mkState blank (mkFlags false false) 0)
    = Ret (false, mkState image' (mkFlags false false) 0)
    ∧ image' !! 0x400 = Some 0x34 ∧ image' !! 0x401 = Some 0x12
    ∧ image' !! 0x402 = image (mkState blank (mkFlags false false) 0) !! 0x402.
Proof.
  destruct (record_applied (line_of ":020400003412B4")
              (mkState blank (mkFlags false false) 0) 2 0x400)
    as (image' & Hp & Hb & Ho);
    [reflexivity|split_and!; reflexivity|reflexivity|exact (proj1 blank_ok)
    |reflexivity|reflexivity|lia|lia|lia|].
  exists image'. split; [exact Hp|]. split_and!.
  - change 0x400 with (0x400 + 0). rewrite Hb by lia.
    vm_compute. reflexivity.
  - change 0x401 with (0x400 + 1). rewrite Hb by lia.
    vm_compute. reflexivity.
  - apply Ho. lia.
Defined.

(** ** Cells that no record reaches *)

Lemma image_store_Ret image a v image' :
  image_store image a v = Ret image' → image' = <[a := v mod 256]> image.
Proof.
  unfold image_store. destruct (image !! a); [|done]. by intros [= <-].
Qed.

Lemma data_loop_untouched count (line : list Z) :
  ∀ ptr address image f image' f',
  data_loop count line ptr address image f = Ret (image', f') →
  ∀ a, a < 0x400 ∨ 0x8000 ≤ a → image' !! a = image !! a.
Proof.
  induction count as [|count IH];
    intros ptr address image f image' f' H a Ha.
  - cbn in H. by injection H as <- <-.
  - rewrite data_loop_S in H.
    apply bind_Ret_inv in H as ([image1 f1] & H1 & H2).
    rewrite (IH _ _ _ _ _ _ H2 a Ha).
    destruct (Z.ltb_spec address 0x400) as [?|Hlo];
      [by injection H1 as <- <-|].
    destruct (Z.geb_spec address 0x8000) as [?|Hhi];
      [by injection H1 as <- <-|].
    cbn [orb] in H1.
    apply bind_Ret_inv in H1 as (v & _ & H1).
    apply bind_Ret_inv in H1 as (image2 & Hst & H1).
    injection H1 as <- <-. apply image_store_Ret in Hst as ->.
    apply lookup_insert_ne. lia.
Qed.

Lemma process_line_untouched (line : list Z) st brk st' :
  process_line line st = Ret (brk, st') →
  ∀ a, a < 0x400 ∨ 0x8000 ≤ a → image st' !! a = image st !! a.
Proof.
  intros H a Ha. unfold process_line in H.
  case_bool_decide; [|by injection H as <- <-].
  apply bind_Ret_inv in H as (count & _ & H).
  apply bind_Ret_inv in H as (address & _ & H).
  destruct (_ && _).
  - apply bind_Ret_inv in H as ([image1 f1] & H1 & H).
    injection H as <- <-. cbn [image].
    by apply (data_loop_untouched _ _ _ _ _ _ _ _ H1).
  - destruct (strncmp2 line 7 "0" "4").
    + apply bind_Ret_inv in H as (u & _ & H). by injection H as <- <-.
    + destruct (strncmp2 line 7 "0" "1"); by injection H as <- <-.
Qed.

Lemma read_loop_untouched fuel : ∀ (input line : list Z) st st',
  read_loop fuel input line st = Ret st' →
  ∀ a, a < 0x400 ∨ 0x8000 ≤ a → image st' !! a = image st !! a.
Proof.
  induction fuel as [|fuel IH]; intros input line st st' H a Ha; [done|].
  cbn [read_loop] in H.
  destruct (fgets line input) as [[line' rest]|]; [|by injection H as <-].
  apply bind_Ret_inv in H as ([brk st1] & Hp & H).
  rewrite <- (process_line_untouched _ _ _ _ Hp a Ha).
  destruct brk; [by injection H as <-|]. by apply (IH _ _ _ _ H).
Qed.

Lemma build_low block (line input : list Z) st :
  block_ok block → build block line input = Ret st →
  erased (image st) 0 0x3FF.
Proof.
  intros Hb H. unfold build in H.
  destruct (init_loop_block block Hb) as (filled & E & _ & Her & _).
  rewrite E, bind_Ret in H. intros a Ha.
  rewrite (read_loop_untouched _ _ _ _ _ H a) by lia.
  apply Her. lia.
Qed.

(** X7: in the file of a successful run every byte of program memory other
    than the two of the CRC-14 is the cell of the image that the record
    loop left. *)
Theorem output_is_image e fs argv o :
  main e fs argv = Ret o → status o = 0 → stderr o = [] →
  ∃ inp outp bytes st,
    argv !! 1%nat = Some inp ∧ argv !! 2%nat = Some outp
    ∧ build (malloc (heap e) 16400) (fresh (stack e) 0 256)
        (default [] (<[outp := []]> fs !! inp)) = Ret st
    ∧ files o !! outp = Some bytes
    ∧ ∀ a, 0 ≤ a < 16384 → a ≠ 0x3EFE → a ≠ 0x3EFF →
        bytes !! Z.to_nat a = image st !! a.
Proof.
  intros Hmain Hst Herr.
  destruct (main_inv _ _ _ _ Hmain) as [E|(inp & outp & Hin & Hout & Hrun)];
    [rewrite Hst in E; discriminate|].
  destruct (main_opened_inv _ _ _ _ _ Hrun)
    as (st & Hb & Hok & _ & [(_ & E & _)|[(_ & _ & E & _)|(_ & _ & _ & Hf)]]);
    [rewrite Herr in E; discriminate..|].
  exists inp, outp, (dfu_file (image st)), st.
  split; [exact Hin|]. split; [exact Hout|]. split; [exact Hb|]. clear Hb.
  split; [rewrite Hf; apply lookup_insert_eq|].
  intros a Ha H1 H2. rewrite dfu_file_lookup, with_crc14_other by lia.
  by destruct (block_ok_lookup _ a Hok) as (b & -> & _); [lia|].
Qed.

Lemma output_is_image_witness :
  ∃ o inp outp bytes st,
    run good_hex = Ret o
    ∧ argv0 !! 1%nat = Some inp ∧ argv0 !! 2%nat = Some outp
    ∧ build (malloc (heap env0) 16400) (fresh (stack env0) 0 256)
        (default [] (<[outp := []]> (fs_of good_hex) !! inp)) = Ret st
    ∧ files o !! outp = Some bytes
    ∧ ∀ a, 0 ≤ a < 16384 → a ≠ 0x3EFE → a ≠ 0x3EFF →
        bytes !! Z.to_nat a = image st !! a.
Proof.
  destruct good_run as (o & Hrun & Hst & Herr).
  destruct (output_is_image env0 (fs_of good_hex) argv0 o Hrun Hst Herr)
    as (inp & outp & bytes & st & H).
  exists o, inp, outp, bytes, st. split; [exact Hrun|exact H].
Defined.

(** X8: no record reaches the cells below 0x400: in the file of every
    successful run the first 1024 bytes are the erased pattern. *)
Theorem bootloader_area_erased e fs argv o :
  main e fs argv = Ret o → status o = 0 → stderr o = [] →
  ∃ outp bytes,
    argv !! 2%nat = Some outp ∧ files o !! outp = Some bytes
    ∧ ∀ a, 0 ≤ a < 0x400 → bytes !! Z.to_nat a = Some (sentinel a).
Proof.
  intros Hmain Hst Herr.
  destruct (main_inv _ _ _ _ Hmain) as [E|(inp & outp & Hin & Hout & Hrun)];
    [rewrite Hst in E; discriminate|].
  destruct (main_opened_inv _ _ _ _ _ Hrun)
    as (st & Hb & Hok & _ & [(_ & E & _)|[(_ & _ & E & _)|(_ & _ & _ & Hf)]]);
    [rewrite Herr in E; discriminate..|].
  pose proof (build_low _ _ _ _ (block_ok_malloc (heap e)) Hb) as Hlow.
  clear Hb.
  exists outp, (dfu_file (image st)).
  split; [exact Hout|]. split; [rewrite Hf; apply lookup_insert_eq|].
  intros a Ha. rewrite dfu_file_lookup, with_crc14_other by lia.
  by rewrite Hlow by lia.
Qed.

Lemma bootloader_area_erased_witness :
  ∃ o outp bytes,
    run good_hex = Ret o
    ∧ argv0 !! 2%nat = Some outp ∧ files o !! outp = Some bytes
    ∧ ∀ a, 0 ≤ a < 0x400 → bytes !! Z.to_nat a = Some (sentinel a).
Proof.
  destruct good_run as (o & Hrun & Hst & Herr).
  destruct (bootloader_area_erased env0 (fs_of good_hex) argv0 o
              Hrun Hst Herr) as (outp & bytes & H).
  exists o, outp, bytes. split; [exact Hrun|exact H].
Defined.

(** ** The accesses outside an array *)

Lemma bind_Fault_inv {A B} (m : exec A) (k : A → exec B) f :
  (m ≫= k) = Fault f → m = Fault f ∨ ∃ a, m = Ret a ∧ k a = Fault f.
Proof.
  destruct m as [a|g|]; intros H.
  - right. exists a. split; [reflexivity|exact H].
  - left. cbn in H. by injection H as ->.
  - discriminate H.
Qed.

Lemma readhex_loop_fault (line : list Z) digits : ∀ text result f,
  0 ≤ text → readhex_loop line text digits result = Fault f →
  ∃ off, f = LineRead off ∧ text ≤ off < text + Z.of_nat digits
         ∧ (length line ≤ Z.to_nat off)%nat.
Proof.
  induction digits as [|digits IH]; intros text result f Ht H; [done|].
  cbn [readhex_loop] in H. unfold line_get in H.
  destruct (line !! Z.to_nat text) eqn:E.
  - rewrite bind_Ret in H.
    assert (0 ≤ text + 1) as Ht' by lia.
    destruct (IH _ _ _ Ht' H) as (off & -> & Ho & Hl).
    exists off. split_and!; [done|lia..].
  - cbn in H. injection H as <-. exists text.
    apply lookup_ge_None in E. split_and!; [done|lia..].
Qed.

Lemma data_loop_fault count (line : list Z) : ∀ ptr address image f flt,
  block_ok image → 0 ≤ ptr →
  data_loop count line ptr address image f = Fault flt →
  (∃ off, flt = LineRead off ∧ ptr ≤ off < ptr + 2 * Z.of_nat count
          ∧ (length line ≤ Z.to_nat off)%nat)
  ∨ (∃ a, flt = ImageWrite a ∧ 16400 ≤ a < 0x8000).
Proof.
  induction count as [|count IH]; intros ptr address image f flt Hok Hp H;
    [done|].
  rewrite data_loop_S in H.
  apply bind_Fault_inv in H as [H|([image1 f1] & H1 & H2)].
  - destruct (Z.ltb_spec address 0x400) as [?|Hlo]; [done|].
    destruct (Z.geb_spec address 0x8000) as [?|Hhi]; [done|].
    cbn [orb] in H.
    apply bind_Fault_inv in H as [H|(v & _ & H)].
    + left. destruct (readhex_loop_fault _ _ _ _ _ Hp H)
        as (off & -> & Ho & Hl).
      exists off. split_and!; [done|lia..].
    + right. apply bind_Fault_inv in H as [H|(? & _ & H)]; [|done].
      destruct (decide (0 ≤ address < 16400)) as [Hin|Hout].
      * by rewrite image_store_ok in H.
      * rewrite image_store_fault in H by done. injection H as <-.
        exists address. split; [done|lia].
  - assert (block_ok image1) as Hok1.
    { destruct (_ || _); [by injection H1 as <- _|].
      apply bind_Ret_inv in H1 as (v & _ & H1).
      apply bind_Ret_inv in H1 as (image2 & Hst & H1).
      injection H1 as <- _. by apply (image_store_inv image address v). }
    assert (0 ≤ ptr + 2) as Hp' by lia.
    destruct (IH _ _ _ _ _ Hok1 Hp' H2)
      as [(off & -> & Ho & Hl)|Hw]; [left|by right].
    exists off. split_and!; [done|lia..].
Qed.

Lemma process_line_fault (line : list Z) st flt :
  length line = 256%nat → block_ok (image st) →
  process_line line st = Fault flt →
  (∃ off, flt = LineRead off ∧ 256 ≤ off ≤ 518)
  ∨ (∃ a, flt = ImageWrite a ∧ 16400 ≤ a < 0x8000).
Proof.
  intros Hl Hok H.
  destruct (line !! 0%nat) as [c|] eqn:E0;
    [|apply lookup_ge_None in E0; lia].
  destruct (decide (c = chr ":")) as [->|Hne];
    [|by rewrite (process_line_no_colon line st c E0 Hne) in H].
  destruct (process_line_header line st Hl E0)
    as (count & address & _ & Hc & _ & _ & Hp).
  rewrite Hp in H. clear Hp. destruct (_ && _).
  - apply bind_Fault_inv in H as [H|([? ?] & _ & H)]; [|done].
    assert (0 ≤ 9) as Hp by lia.
    destruct (data_loop_fault _ _ _ _ _ _ _ Hok Hp H)
      as [(off & -> & Ho & Hlen)|Hw]; [left|by right].
    exists off. split; [done|lia].
  - destruct (strncmp2 line 7 "0" "4").
    + destruct (readhex_address line 9 Hl) as (? & ? & ? & ? & _ & Hu); [lia|].
      change (Z.of_nat 9) with 9 in Hu. by rewrite Hu in H.
    + by destruct (strncmp2 line 7 "0" "1").
Qed.

Lemma read_loop_fault fuel : ∀ (input line : list Z) st flt,
  length line = 256%nat → block_ok (image st) →
  read_loop fuel input line st = Fault flt →
  (∃ off, flt = LineRead off ∧ 256 ≤ off ≤ 518)
  ∨ (∃ a, flt = ImageWrite a ∧ 16400 ≤ a < 0x8000).
Proof.
  induction fuel as [|fuel IH]; intros input line st flt Hl Hok H; [done|].
  cbn [read_loop] in H.
  destruct (fgets line input) as [[line' rest]|] eqn:E; [|done].
  destruct (fgets_spec _ _ _ _ Hl E) as [Hl' _].
  apply bind_Fault_inv in H as [H|([brk st1] & Hp & H)].
  - by apply (process_line_fault line' st).
  - destruct brk; [done|].
    apply (IH _ _ _ _ Hl' (process_line_block_ok _ _ _ _ Hok Hp) H).
Qed.

Lemma read_loop_block_ok fuel : ∀ (input line : list Z) st st',
  length line = 256%nat → block_ok (image st) →
  read_loop fuel input line st = Ret st' → block_ok (image st').
Proof.
  induction fuel as [|fuel IH]; intros input line st st' Hl Hok H; [done|].
  cbn [read_loop] in H.
  destruct (fgets line input) as [[line' rest]|] eqn:E;
    [|by injection H as <-].
  destruct (fgets_spec _ _ _ _ Hl E) as [Hl' _].
  apply bind_Ret_inv in H as ([brk st1] & Hp & H).
  pose proof (process_line_block_ok _ _ _ _ Hok Hp) as Hok1.
  destruct brk; [by injection H as <-|]. by apply (IH _ _ _ _ Hl' Hok1 H).
Qed.

(** X9: [main] stops at an access outside an array in two ways only: the
    payload loop reads the line array at an offset from 256 to 518, or it
    stores in the block at an offset from 16400 to 0x7FFF.  The sentinel
    fill, the header fields of a record, the CRC-14 pass, the suffix, the
    CRC-32 and [fwrite] stay inside, and the assertion holds. *)
Theorem only_two_faults e fs argv flt :
  main e fs argv = Fault flt →
  (∃ off, flt = LineRead off ∧ 256 ≤ off ≤ 518)
  ∨ (∃ a, flt = ImageWrite a ∧ 16400 ≤ a < 0x8000).
Proof.
  unfold main. destruct (decide _); [done|].
  destruct (malloc_ok e); [|done]. cbv zeta.
  destruct (fs !! _); [|done]. destruct (writable e _); [|done].
  unfold main_opened, convert, build.
  change (PM_SIZE_IN_BYTES + DFU_SUFFIX) with 16400.
  destruct (init_loop_block _ (block_ok_malloc (heap e)))
    as (filled & -> & Hok & _).
  rewrite bind_Ret.
  pose proof (fresh_length (stack e) 0 256) as Hline.
  generalize dependent (fresh (stack e) 0 256). intros line Hline H.
  apply bind_Fault_inv in H as [H|([diag written] & _ & H)]; [|done].
  apply bind_Fault_inv in H as [H|(st & Hr & H)].
  - exact (read_loop_fault _ _ _
             (mkState filled (mkFlags false false) 0) _ Hline Hok H).
  - pose proof (read_loop_block_ok _ _ _
                  (mkState filled (mkFlags false false) 0) _ Hline Hok Hr)
      as Hok'.
    rewrite finish_ok in H by exact Hok'.
    destruct (out_of_bounds (fl st)); [done|].
    by destruct (occupied (image st)).
Qed.

Lemma only_two_faults_witness :
  (∃ off, LineRead 256 = LineRead off ∧ 256 ≤ off ≤ 518)
  ∨ (∃ a, LineRead 256 = ImageWrite a ∧ 16400 ≤ a < 0x8000).
Proof.
  refine (only_two_faults env0 (fs_of long_hex) argv0 (LineRead 256) _).
  vm_compute. reflexivity.
Defined.

(** ** The exit status *)

(** X10: [main] returns -1 exactly when it stops before the conversion: too few
    arguments, no memory, no input file or no output file; it then prints
    one line and leaves the file system as it was.  In every other run
    that returns, also one whose validation fails, it returns 0, and the
    only file that it changed is the output file, which is empty or holds
    16400 bytes. *)
Theorem exit_status e fs argv o :
  main e fs argv = Ret o →
  (status o = -1 ∧ files o = fs ∧ (∃ m, stderr o = [m])
   ∧ ((length argv < 3)%nat ∨ malloc_ok e = false
      ∨ fs !! default "" (argv !! 1%nat) = None
      ∨ writable e (default "" (argv !! 2%nat)) = false))
  ∨ (status o = 0 ∧ (3 ≤ length argv)%nat ∧ malloc_ok e = true
     ∧ is_Some (fs !! default "" (argv !! 1%nat))
     ∧ writable e (default "" (argv !! 2%nat)) = true
     ∧ ∃ bytes,
         files o = <[default "" (argv !! 2%nat) := bytes]> fs
         ∧ (bytes = [] ∨ length bytes = Z.to_nat 16400)).
Proof.
  unfold main. destruct (decide _) as [Hlt|Hge].
  { intros [= <-]. left. cbn. eauto 10. }
  destruct (malloc_ok e); [|intros [= <-]; left; cbn; eauto 10].
  cbv zeta. destruct (fs !! default "" (argv !! 1%nat)) as [content|] eqn:Ei;
    [|intros [= <-]; left; cbn; eauto 10].
  destruct (writable e _); [|intros [= <-]; left; cbn; eauto 10].
  intros Hrun. right.
  destruct (main_opened_inv _ _ _ _ _ Hrun)
    as (st & _ & _ & Hst & [(_ & _ & Hf)|[(_ & _ & _ & Hf)|(_ & _ & _ & Hf)]]);
    (split_and!; [exact Hst|lia|done|done|done|]).
  - exists []. by split; [|left].
  - exists []. by split; [|left].
  - exists (dfu_file (image st)). split; [|right; apply dfu_file_length].
    rewrite Hf. apply insert_insert_eq.
Qed.

Lemma exit_status_witness :
  (status (mkOutcome (-1) [msg_usage "hex2dfu"] ∅) = -1
   ∧ files (mkOutcome (-1) [msg_usage "hex2dfu"] ∅) = ∅
   ∧ (∃ m, stderr (mkOutcome (-1) [msg_usage "hex2dfu"] ∅) = [m])
   ∧ ((length ["hex2dfu"; "in.hex"]%string < 3)%nat ∨ malloc_ok env0 = false
      ∨ (∅ : gmap string (list Z))
          !! default ""%string (["hex2dfu"; "in.hex"]%string !! 1%nat) = None
      ∨ writable env0
          (default ""%string (["hex2dfu"; "in.hex"]%string !! 2%nat))
        = false))
  ∨ (status (mkOutcome (-1) [msg_usage "hex2dfu"] ∅) = 0
     ∧ (3 ≤ length ["hex2dfu"; "in.hex"]%string)%nat ∧ malloc_ok env0 = true
     ∧ is_Some ((∅ : gmap string (list Z))
                  !! default ""%string (["hex2dfu"; "in.hex"]%string !! 1%nat))
     ∧ writable env0
         (default ""%string (["hex2dfu"; "in.hex"]%string !! 2%nat)) = true
     ∧ ∃ bytes,
         files (mkOutcome (-1) [msg_usage "hex2dfu"] ∅)
         = <[default ""%string (["hex2dfu"; "in.hex"]%string !! 2%nat)
             := bytes]> ∅
         ∧ (bytes = [] ∨ length bytes = Z.to_nat 16400)).
Proof.
  apply (exit_status env0 ∅ ["hex2dfu"; "in.hex"]%string
           (mkOutcome (-1) [msg_usage "hex2dfu"] ∅)).
  reflexivity.
Defined.

(** ** The CRC-32 of the whole file *)

Lemma crc32_table_bound i : 0 ≤ nth i crc32_table 0 < 2 ^ 32.
Proof.
  assert (forallb (λ t, (0 <=? t) && (t <? 2 ^ 32)) crc32_table = true) as H
    by (vm_compute; reflexivity).
  rewrite forallb_forall in H.
  destruct (Nat.lt_ge_cases i (length crc32_table)) as [Hi|Hi].
  - specialize (H _ (nth_In _ 0 Hi)). lia.
  - rewrite nth_overflow by exact Hi. lia.
Qed.

(** The register of [crc32_calc] stays a 32-bit value. *)
Lemma crc32_step_bound crc b :
  0 ≤ crc < 2 ^ 32 → 0 ≤ crc32_step crc b < 2 ^ 32.
Proof.
  intros Hc. unfold crc32_step.
  apply lxor_bound; [lia|apply crc32_table_bound|].
  rewrite Z.shiftr_div_pow2 by lia. change (2 ^ 8) with 256.
  change (2 ^ 32) with 4294967296 in *.
  pose proof (Z_div_mod_eq_full crc 256).
  pose proof (Z.mod_pos_bound crc 256). lia.
Qed.

(** Feeding the register its own low byte shifts it out. *)
Lemma crc32_step_self crc :
  crc32_step crc (crc mod 256) = Z.shiftr crc 8.
Proof.
  unfold crc32_step.
  change 256 with (2 ^ 8). rewrite <- Z.land_ones by lia.
  change (Z.ones 8) with 0xff.
  assert (Z.land (Z.lxor crc (Z.land crc 0xff)) 0xff = 0) as ->.
  { apply Z.bits_inj'. intros n _.
    rewrite Z.land_spec, Z.lxor_spec, Z.land_spec, Z.bits_0.
    by destruct (Z.testbit crc n), (Z.testbit 0xff n). }
  change (nth (Z.to_nat 0) crc32_table 0) with 0.
  apply Z.lxor_0_l.
Qed.

Lemma crc32_le32_residue crc :
  0 ≤ crc < 2 ^ 32 → fold_left crc32_step (le32 crc) crc = 0.
Proof.
  intros Hc. unfold le32. rewrite !fold_left_cons_eq. cbn [fold_left].
  rewrite crc32_step_self, Z.shiftr_div_pow2 by lia.
  rewrite crc32_step_self, Z.shiftr_div_pow2 by lia.
  rewrite Z.div_div by lia. change (2 ^ 8 * 2 ^ 8) with (2 ^ 16).
  rewrite crc32_step_self, Z.shiftr_div_pow2 by lia.
  rewrite Z.div_div by lia. change (2 ^ 16 * 2 ^ 8) with (2 ^ 24).
  rewrite crc32_step_self, Z.shiftr_div_pow2 by lia.
  rewrite Z.div_div by lia. change (2 ^ 24 * 2 ^ 8) with (2 ^ 32).
  apply Z.div_small. exact Hc.
Qed.

(** X11: the register of [crc32_calc], run from 0xFFFFFFFF over all the 16400
    bytes of a file that [main] wrote, ends at 0: the four bytes of
    [dwCRC], being the register itself with no final inversion, cancel
    it. *)
Theorem crc32_residue e fs argv o :
  main e fs argv = Ret o → status o = 0 → stderr o = [] →
  ∃ outp bytes,
    argv !! 2%nat = Some outp ∧ files o !! outp = Some bytes
    ∧ fold_left crc32_step bytes 0xFFFFFFFF = 0.
Proof.
  intros Hmain Hst Herr.
  destruct (main_inv _ _ _ _ Hmain) as [E|(inp & outp & _ & Hout & Hrun)];
    [rewrite Hst in E; discriminate|].
  destruct (main_opened_inv _ _ _ _ _ Hrun)
    as (st & _ & _ & _ & [(_ & E & _)|[(_ & _ & E & _)|(_ & _ & _ & Hf)]]);
    [rewrite Herr in E; discriminate..|].
  exists outp, (dfu_file (image st)). split; [exact Hout|].
  split; [rewrite Hf; apply lookup_insert_eq|].
  unfold dfu_file. rewrite dwCRC_le32, fold_left_app.
  apply crc32_le32_residue.
  apply fold_left_invariant; [intros; by apply crc32_step_bound|].
  change (2 ^ 32) with 4294967296. lia.
Qed.

Lemma crc32_residue_witness :
  ∃ o outp bytes,
    run good_hex = Ret o
    ∧ argv0 !! 2%nat = Some outp ∧ files o !! outp = Some bytes
    ∧ fold_left crc32_step bytes 0xFFFFFFFF = 0.
Proof.
  destruct good_run as (o & Hrun & Hst & Herr).
  destruct (crc32_residue env0 (fs_of good_hex) argv0 o Hrun Hst Herr)
    as (outp & bytes & H).
  exists o, outp, bytes. split; [exact Hrun|exact H].
Defined.

(** ** The digits that readhex decodes *)

Lemma hexval_digit c n : digit_of c n → hexval c = n.
Proof.
  unfold digit_of, upper_digit, lower_digit, hexval.
  change (chr "0") with 48. change (chr "9") with 57.
  change (chr "A") with 65. change (chr "F") with 70.
  change (chr "a") with 97. change (chr "f") with 102.
  intros [Hn Hc].
  destruct (Z.ltb_spec n 10);
    repeat match goal with
      | |- context [?a <=? ?b] => destruct (Z.leb_spec a b)
      end; cbn [andb]; lia.
Qed.

Lemma readhex_loop_digits (line : list Z) : ∀ (cs ns : list Z) (off : nat) r r',
  take (length cs) (drop off line) = cs → Forall2 digit_of cs ns →
  r = r' mod 2 ^ 32 →
  readhex_loop line (Z.of_nat off) (length cs) r
  = Ret (fold_left (λ v n, v * 16 + n) ns r' mod 2 ^ 32).
Proof.
  induction cs as [|c cs IH]; intros ns off r r' Ht Hd Hr.
  - apply Forall2_nil_inv_l in Hd as ->. cbn. by rewrite Hr.
  - apply Forall2_cons_inv_l in Hd as (n & ns' & Hc & Hd & ->).
    cbn [length readhex_loop fold_left].
    assert (line !! off = Some c ∧ take (length cs) (drop (S off) line) = cs)
      as [Hl Ht'].
    { cbn [length] in Ht. destruct (drop off line) as [|x rest] eqn:E;
        [done|]. cbn [take] in Ht. injection Ht as -> Ht.
      split.
      - rewrite <- (Nat.add_0_r off), <- lookup_drop, E. reflexivity.
      - rewrite <- Ht at 2. f_equal.
        change (S off) with (1 + off)%nat. by rewrite Nat.add_comm, <- drop_drop, E. }
    unfold line_get. rewrite Nat2Z.id, Hl, bind_Ret.
    replace (Z.of_nat off + 1) with (Z.of_nat (S off)) by lia.
    apply (IH ns' (S off) _ (r' * 16 + n) Ht' Hd).
    rewrite (hexval_digit c n Hc). unfold wrap32.
    rewrite Z.shiftl_mul_pow2 by lia. change (2 ^ 4) with 16.
    rewrite Zplus_mod_idemp_l, Hr.
    rewrite <- Zplus_mod_idemp_l, Zmult_mod_idemp_l, Zplus_mod_idemp_l.
    reflexivity.
Qed.

(** X12: [readhex] reads a run of hexadecimal digits, of either case, as the
    number that they denote in base 16, most significant digit first,
    reduced modulo 2^32. *)
Theorem readhex_digits (line cs ns : list Z) (off : nat) :
  take (length cs) (drop off line) = cs → Forall2 digit_of cs ns →
  readhex line (Z.of_nat off) (length cs)
  = Ret (fold_left (λ v n, v * 16 + n) ns 0 mod 2 ^ 32).
Proof.
  intros Ht Hd. by apply readhex_loop_digits.
Qed.

Lemma readhex_digits_witness :
  readhex (chars ":10aB") (Z.of_nat 1) (length [49; 48; 97; 66])
  = Ret (fold_left (λ v n, v * 16 + n) [1; 0; 10; 11] 0 mod 2 ^ 32).
Proof.
  apply (readhex_digits (chars ":10aB") [49; 48; 97; 66] [1; 0; 10; 11] 1).
  - reflexivity.
  - repeat (constructor 2; [split; [lia|vm_compute; auto]|]). constructor 1.
Defined.

(** ** The indeterminate contents of the block *)

Lemma exec_rel_bind {A B C D} (R : A → B → Prop) (S : C → D → Prop)
    (m1 : exec A) (m2 : exec B) (k1 : A → exec C) (k2 : B → exec D) :
  exec_rel R m1 m2 → (∀ a b, R a b → exec_rel S (k1 a) (k2 b)) →
  exec_rel S (m1 ≫= k1) (m2 ≫= k2).
Proof.
  destruct m1 as [a|f|], m2 as [b|g|]; cbn; intros H Hk;
    solve [exact H | destruct H | by apply Hk].
Qed.

Lemma exec_rel_refl {A} (m : exec A) : exec_rel eq m m.
Proof. by destruct m. Qed.

Lemma image_store_rel i1 i2 a v :
  same_program i1 i2 →
  exec_rel same_program (image_store i1 a v) (image_store i2 a v).
Proof.
  intros (H1 & H2 & He). destruct (decide (0 ≤ a < 16400)) as [Ha|Ha].
  - rewrite !image_store_ok by done.
    split_and!; [by apply block_ok_insert..|].
    intros x Hx. destruct (decide (x = a)) as [->|Hne].
    + by rewrite !lookup_insert_eq.
    + rewrite !lookup_insert_ne by done. by apply He.
  - by rewrite !image_store_fault by done.
Qed.

Lemma data_loop_rel count : ∀ (line : list Z) ptr address i1 i2 f,
  same_program i1 i2 →
  exec_rel (λ r1 r2, same_program r1.1 r2.1 ∧ r1.2 = r2.2)
    (data_loop count line ptr address i1 f)
    (data_loop count line ptr address i2 f).
Proof.
  induction count as [|count IH]; intros line ptr address i1 i2 f Hs;
    [by split|].
  rewrite !data_loop_S.
  apply exec_rel_bind
    with (R := λ r1 r2, same_program r1.1 r2.1 ∧ r1.2 = r2.2).
  - destruct (_ || _); [by split|].
    apply exec_rel_bind with (R := eq); [apply exec_rel_refl|].
    intros v ? <-.
    apply exec_rel_bind with (R := same_program);
      [by apply image_store_rel|].
    intros i1' i2' Hs'. by split.
  - intros [i1' f1] [i2' f2] [Hs' E]. cbn [fst snd] in Hs', E. subst f2.
    by apply IH.
Qed.

Lemma process_line_rel (line : list Z) s1 s2 :
  same_state s1 s2 →
  exec_rel (λ r1 r2, r1.1 = r2.1 ∧ same_state r1.2 r2.2)
    (process_line line s1) (process_line line s2).
Proof.
  destruct s1 as [i1 f1 u1], s2 as [i2 f2 u2].
  intros (Hs & Hf & Hu). cbn [image fl upper_address] in Hs, Hf, Hu.
  subst f2 u2. unfold process_line. cbn [image fl upper_address].
  assert (∀ b u, exec_rel (λ r1 r2 : bool * state,
                             r1.1 = r2.1 ∧ same_state r1.2 r2.2)
                   (Ret (b, mkState i1 f1 u)) (Ret (b, mkState i2 f1 u)))
    as Hret by (intros b u; split; [reflexivity|]; split; [exact Hs|by split]).
  case_bool_decide; [|apply Hret].
  apply exec_rel_bind with (R := eq); [apply exec_rel_refl|].
  intros count ? <-.
  apply exec_rel_bind with (R := eq); [apply exec_rel_refl|].
  intros address ? <-.
  destruct (_ && _).
  - apply exec_rel_bind
      with (R := λ r1 r2, same_program r1.1 r2.1 ∧ r1.2 = r2.2);
      [by apply data_loop_rel|].
    intros [i1' f1'] [i2' f2'] [Hs' E]. cbn [fst snd] in Hs', E. subst f2'.
    split; [reflexivity|]. split; [exact Hs'|by split].
  - destruct (strncmp2 line 7 "0" "4").
    + apply exec_rel_bind with (R := eq); [apply exec_rel_refl|].
      intros u ? <-. apply Hret.
    + destruct (strncmp2 line 7 "0" "1"); apply Hret.
Qed.

Lemma read_loop_rel fuel : ∀ (input line : list Z) s1 s2,
  same_state s1 s2 →
  exec_rel same_state (read_loop fuel input line s1)
    (read_loop fuel input line s2).
Proof.
  induction fuel as [|fuel IH]; intros input line s1 s2 Hs; [done|].
  cbn [read_loop]. destruct (fgets line input) as [[line' rest]|]; [|done].
  apply exec_rel_bind
    with (R := λ r1 r2, r1.1 = r2.1 ∧ same_state r1.2 r2.2);
    [by apply process_line_rel|].
  intros [b1 s1'] [b2 s2'] [E Hs']. cbn [fst snd] in E, Hs'. subst b2.
  destruct b1; [done|]. by apply IH.
Qed.

Lemma dfu_file_same i1 i2 :
  (∀ a, a < 16384 → i1 !! a = i2 !! a) → dfu_file i1 = dfu_file i2.
Proof.
  intros He.
  assert (dfu_body i1 = dfu_body i2) as Hb.
  { unfold dfu_body.
    rewrite (crc14_fold_ext i1 i2).
    - f_equal. apply cells_ext. intros a Ha. unfold with_crc14.
      destruct (decide (a = 0x3EFF)) as [->|?];
        [by rewrite !lookup_insert_eq|].
      rewrite !(lookup_insert_ne _ 0x3EFF) by done.
      destruct (decide (a = 0x3EFE)) as [->|?];
        [by rewrite !lookup_insert_eq|].
      rewrite !(lookup_insert_ne _ 0x3EFE) by done.
      apply He. change (Z.of_nat (Z.to_nat 16384)) with 16384 in Ha. lia.
    - intros a Ha. apply elem_of_crc14_window in Ha as (_ & Ha & _).
      unfold HIGH_ENDURANCE_ADDRESS in Ha. unfold le16.
      by rewrite !He by lia. }
  unfold dfu_file. by rewrite Hb.
Qed.

Lemma finish_rel s1 s2 : same_state s1 s2 → finish s1 = finish s2.
Proof.
  intros ((H1 & H2 & He) & Hf & _).
  rewrite !finish_ok by done. rewrite Hf.
  assert (occupied (image s1) = occupied (image s2)) as ->
    by (unfold occupied; by rewrite !He by lia).
  by rewrite (dfu_file_same _ _ He).
Qed.

Lemma main_opened_heap e m h w fs inp outp :
  main_opened (mkEnv m h (stack e) w) fs inp outp
  = main_opened e fs inp outp.
Proof.
  unfold main_opened, convert, build. cbn [heap stack].
  change (PM_SIZE_IN_BYTES + DFU_SUFFIX) with 16400.
  destruct (init_loop_block _ (block_ok_malloc h))
    as (g1 & -> & Hok1 & Her1 & _).
  destruct (init_loop_block _ (block_ok_malloc (heap e)))
    as (g2 & -> & Hok2 & Her2 & _).
  rewrite !bind_Ret.
  assert (same_state (mkState g1 (mkFlags false false) 0)
                     (mkState g2 (mkFlags false false) 0)) as Hs.
  { split; [|by split]. split; [exact Hok1|]. split; [exact Hok2|].
    cbn [image]. intros a Ha. destruct (decide (0 ≤ a)) as [?|?].
    - by rewrite Her1, Her2 by lia.
    - by rewrite !block_ok_outside by (done || lia). }
  pose proof (read_loop_rel
                (S (length (default [] (fs !! inp))))
                (default [] (fs !! inp)) (fresh (stack e) 0 256) _ _ Hs)
    as Hr.
  destruct (read_loop _ _ _ (mkState g1 _ _)) as [s1|f1|],
    (read_loop _ _ _ (mkState g2 _ _)) as [s2|f2|];
    try solve [destruct Hr]; [|by rewrite Hr|done].
  rewrite !bind_Ret. by rewrite (finish_rel _ _ Hr).
Qed.

(** X13: what [malloc] left in the block does not tell in any run: [main]
    ends the same way, with the same lines printed and the same files,
    whatever the 16400 bytes of the fresh block are.  The sentinel fill
    covers program memory, stores between 16384 and 16399 are overwritten
    by the suffix, and no cell of the suffix is read before it is
    written. *)
Theorem heap_independent e h fs argv :
  main (mkEnv (malloc_ok e) h (stack e) (writable e)) fs argv
  = main e fs argv.
Proof.
  unfold main. cbn [malloc_ok writable].
  destruct (decide _); [done|].
  destruct (malloc_ok e); [|done]. cbv zeta.
  destruct (fs !! _); [|done]. destruct (writable e _); [|done].
  exact (main_opened_heap e true h (writable e) _ _ _).
Qed.

(** ** The CRC-14 and exclusive or *)

Lemma land_1_b2z x : Z.land x 0x0001 = Z.b2z (Z.testbit x 0).
Proof.
  change 0x0001 with (Z.ones 1). rewrite Z.land_ones by lia.
  change (2 ^ 1) with 2. symmetry. apply Z.bit0_mod.
Qed.

Lemma crc14_tap (b : bool) crc p :
  (if Z.b2z b =? 0 then crc else Z.lxor crc p)
  = Z.lxor crc (if b then p else 0).
Proof. destruct b; cbn [Z.b2z]; [reflexivity|]. by rewrite Z.lxor_0_r. Qed.

Lemma lxor_b2z a b : Z.lxor (Z.b2z a) (Z.b2z b) = Z.b2z (xorb a b).
Proof. by destruct a, b. Qed.

Lemma crc14_bits_lxor n : ∀ d1 c1 d2 c2,
  crc14_bits n (Z.lxor d1 d2) (Z.lxor c1 c2)
  = Z.lxor (crc14_bits n d1 c1) (crc14_bits n d2 c2).
Proof.
  induction n as [|n IH]; intros d1 c1 d2 c2; [reflexivity|].
  cbn [crc14_bits]. cbv zeta.
  rewrite !land_1_b2z, !lxor_b2z, !crc14_tap, <- IH, !Z.lxor_spec.
  rewrite !Z.shiftr_lxor. f_equal.
  generalize 0x23B1 (Z.shiftr c1 1) (Z.shiftr c2 1). intros p s1 s2.
  apply Z.bits_inj'. intros i _.
  destruct (Z.testbit d1 0), (Z.testbit c1 0), (Z.testbit d2 0),
    (Z.testbit c2 0); cbn [xorb]; rewrite ?Z.lxor_spec, ?Z.bits_0;
    by destruct (Z.testbit s1 i), (Z.testbit s2 i), (Z.testbit p i).
Qed.

(** X14: [calc_modified_crc14] is linear over exclusive or: the register after
    the word [d1 xor d2] from the register [c1 xor c2] is the exclusive or
    of the registers after [d1] from [c1] and after [d2] from [c2]. *)
Theorem calc_modified_crc14_lxor d1 c1 d2 c2 :
  calc_modified_crc14 (Z.lxor d1 d2) (Z.lxor c1 c2)
  = Z.lxor (calc_modified_crc14 d1 c1) (calc_modified_crc14 d2 c2).
Proof. apply crc14_bits_lxor. Qed.

(** X15: only the low 16 bits of the word count: [calc_modified_crc14] shifts
    out 16 bits of [data] and never looks at the others. *)
Theorem calc_modified_crc14_low16 data crc :
  calc_modified_crc14 (data mod 2 ^ 16) crc = calc_modified_crc14 data crc.
Proof.
  unfold calc_modified_crc14.
  assert (∀ n d1 d2 c,
    (∀ i, 0 ≤ i < Z.of_nat n → Z.testbit d1 i = Z.testbit d2 i) →
    crc14_bits n d1 c = crc14_bits n d2 c) as Hgen.
  { induction n as [|n IH]; intros d1 d2 c Hb; [reflexivity|].
    cbn [crc14_bits]. cbv zeta. rewrite !land_1_b2z, (Hb 0) by lia.
    apply IH. intros i Hi. rewrite !Z.shiftr_spec by lia. apply Hb. lia. }
  apply Hgen. intros i Hi. apply Z.mod_pow2_bits_low.
  change (Z.of_nat 16) with 16 in Hi. lia.
Qed.
